(** * BioScout Islamabad: the retrieval-and-generation pipeline and its
      deterministic fallbacks

    A shallow embedding of [services/rag_service.py] and
    [services/ai_service.py], followed by the properties of the two
    degradation chains, the context builder, the term extractor, the
    filename heuristic, the response-text parser and the geo-formatter.

    Modelling conventions.
    - A Python [str] is a [string] whose characters are the code points
      0..255; [lower] and [isspace] follow Python on that range.
    - A [float] literal is the rational it is written as ([0.7] is [7 # 10]).
    - A [dict] read only at fixed keys is a record of optional fields
      ([None] = the key is absent).
    - The two module globals [USE_FALLBACK_MODE], the remote services, the
      file system and the storage collaborators are threaded explicitly:
      a state, a log of the effects performed and a [world] of outcomes.
    - [print] and [traceback.print_exc] are not modelled. *)

From Stdlib Require Import String Ascii List Bool Arith ZArith QArith Lia.
From Stdlib Require Import Numbers.DecimalString.
Import ListNotations.
Local Open Scope string_scope.
Local Open Scope bool_scope.
Local Open Scope nat_scope.

(* ================================================================= *)
(** ** Python string primitives *)

Module Py.

Definition LF : string := String (ascii_of_nat 10) "".

(** [str.lower] on one character: A-Z and the Latin-1 capitals. *)
Definition lower_char (c : ascii) : ascii :=
  let n := nat_of_ascii c in
  if ((65 <=? n) && (n <=? 90))
     || ((192 <=? n) && (n <=? 222) && negb (n =? 215))
  then ascii_of_nat (n + 32) else c.

Fixpoint lower (s : string) : string :=
  match s with
  | "" => ""
  | String c s' => String (lower_char c) (lower s')
  end.

(** [str.isspace] on one character. *)
Definition isspace (c : ascii) : bool :=
  let n := nat_of_ascii c in
  ((9 <=? n) && (n <=? 13)) || ((28 <=? n) && (n <=? 32))
  || (n =? 133) || (n =? 160).

(** [s[:n]] and [s[n:]] for [0 <= n]. *)
Fixpoint take (n : nat) (s : string) : string :=
  match n, s with
  | S k, String c s' => String c (take k s')
  | _, _ => ""
  end.

Fixpoint drop (n : nat) (s : string) : string :=
  match n, s with
  | S k, String _ s' => drop k s'
  | _, _ => s
  end.

(** [s.startswith(p)]. *)
Definition startswith (s p : string) : bool := prefix p s.

(** [s.find(sub)]: index of the leftmost occurrence, [None] for -1. *)
Fixpoint find (sub s : string) : option nat :=
  if prefix sub s then Some 0
  else match s with
       | "" => None
       | String _ s' => option_map S (find sub s')
       end.

(** [s.rfind(sub)]: index of the rightmost occurrence. *)
Fixpoint rfind (sub s : string) : option nat :=
  match s with
  | "" => if prefix sub "" then Some 0 else None
  | String _ s' =>
      match rfind sub s' with
      | Some i => Some (S i)
      | None => if prefix sub s then Some 0 else None
      end
  end.

(** [sub in s]. *)
Definition contains (sub s : string) : bool :=
  match find sub s with Some _ => true | None => false end.

(** [s.split(sep, maxsplit)] for a non-empty [sep]: cut at the leftmost
    occurrence, at most [maxsplit] times. *)
Fixpoint split_max (maxsplit : nat) (sep s : string) : list string :=
  match maxsplit with
  | 0 => [s]
  | S k =>
      match find sep s with
      | None => [s]
      | Some i => take i s :: split_max k sep (drop (i + String.length sep) s)
      end
  end.

(** [s.split(sep)]: no limit; a string of length n has at most n
    occurrences of a non-empty separator. *)
Definition split (sep s : string) : list string :=
  split_max (String.length s) sep s.

(** [s.replace(old, new, count)] for a non-empty [old]. *)
Fixpoint replace_max (count : nat) (old new s : string) : string :=
  match count with
  | 0 => s
  | S k =>
      match find old s with
      | None => s
      | Some i =>
          take i s ++ new ++ replace_max k old new (drop (i + String.length old) s)
      end
  end.

Definition replace (old new s : string) : string :=
  replace_max (String.length s) old new s.

(** [sep.join(l)]. *)
Definition join (sep : string) (l : list string) : string := String.concat sep l.

Fixpoint lstrip (s : string) : string :=
  match s with
  | "" => ""
  | String c s' => if isspace c then lstrip s' else s
  end.

Fixpoint rstrip (s : string) : string :=
  match s with
  | "" => ""
  | String c s' =>
      match rstrip s' with
      | "" => if isspace c then "" else String c ""
      | r => String c r
      end
  end.

(** [s.strip()]. *)
Definition strip (s : string) : string := lstrip (rstrip s).

(** [str(n)] for an [int]. *)
Definition str_of_int (n : Z) : string := NilZero.string_of_int (Z.to_int n).

(** [os.path.basename] (POSIX): everything after the last slash. *)
Definition basename (p : string) : string :=
  match rfind "/" p with
  | Some i => drop (i + 1) p
  | None => p
  end.

Fixpoint all_dots (s : string) : bool :=
  match s with
  | "" => true
  | String c s' => Ascii.eqb c "."%char && all_dots s'
  end.

(** [os.path.splitext] (POSIX): split at the last dot of the last path
    component, unless that component consists of leading dots up to it. *)
Definition splitext (p : string) : string * string :=
  let filenameIndex := match rfind "/" p with Some i => i + 1 | None => 0 end in
  match rfind "." p with
  | Some dotIndex =>
      if (filenameIndex <=? dotIndex)
         && negb (all_dots (take (dotIndex - filenameIndex) (drop filenameIndex p)))
      then (take dotIndex p, drop dotIndex p)
      else (p, "")
  | None => (p, "")
  end.

End Py.

(* ================================================================= *)
(** ** Exceptions, values and records *)

(** The exception classes that matter; [RemoteError] stands for whatever
    a remote client raises (network, timeout, status, payload shape). *)
Inductive exn : Type :=
| KeyError | TypeError | IndexError | AttributeError | ValueError
| OSError | RemoteError.

(** The outcome of evaluating Python code: a value or a raised exception. *)
Inductive pyresult (A : Type) : Type :=
| Return (a : A)
| Raise (e : exn).
Arguments Return {A} a.
Arguments Raise {A} e.

Definition raises {A} (r : pyresult A) : bool :=
  match r with Return _ => false | Raise _ => true end.

(** Values that are only tested for truth and passed on (the
    [coordinates] of an observation). *)
#[warnings="-register-all"] Inductive pyval : Type :=
| VNone
| VBool (b : bool)
| VNum (q : Q)
| VStr (s : string)
| VList (l : list pyval).

Definition truthy (v : pyval) : bool :=
  match v with
  | VNone => false
  | VBool b => b
  | VNum q => negb (Qeq_bool q 0)
  | VStr s => negb (s =? "")%string
  | VList [] => false
  | VList (_ :: _) => true
  end.

(** The [id] of an observation: an [int], a [str], or another object, of
    which only the outcome of [str(...)] is recorded. *)
Inductive idval : Type :=
| IdInt (n : Z)
| IdStr (s : string)
| IdObj (str_outcome : pyresult string).

Definition py_str (v : idval) : pyresult string :=
  match v with
  | IdInt n => Return (Py.str_of_int n)
  | IdStr s => Return s
  | IdObj r => r
  end.

(** A knowledge document and an observation, as the dicts the storage
    collaborators return; the values present are strings. *)
Record document : Type := {
  doc_title : option string;
  doc_source : option string;
  doc_content : option string
}.

Record observation : Type := {
  obs_id : option idval;
  obs_species_name : option string;
  obs_location : option string;
  obs_date_observed : option string;
  obs_coordinates : option pyval;
  obs_notes : option string
}.

(** [d.get(key, default)]. *)
Definition get {A} (field : option A) (default : A) : A :=
  match field with Some v => v | None => default end.

(** [d[key]]. *)
Definition getitem {A} (field : option A) : pyresult A :=
  match field with Some v => Return v | None => Raise KeyError end.

(** The GeoJSON-like feature built by [format_observations]. *)
Record geometry : Type := {
  geometry_type : string;
  geometry_coordinates : pyval
}.

Record properties : Type := {
  prop_id : string;
  prop_species : string;
  prop_date : string;
  prop_location : string;
  prop_notes : string
}.

Record feature : Type := {
  feature_type : string;
  feature_geometry : geometry;
  feature_properties : properties
}.

(** The dict returned by [process_query]. *)
Record QueryResult : Type := {
  response : string;
  knowledge_sources : list string;
  observation_count : nat;
  observations : list feature
}.

(** The dicts returned by [get_species_from_image]. *)
Record species_record : Type := {
  name : string;
  confidence : Q
}.

Record IdentificationResult : Type := {
  success : bool;
  result : string;
  species : option species_record
}.

(** A decoded JSON payload ([response.json()]); an object is the list of
    its items. *)
#[warnings="-register-all"] Inductive json : Type :=
| JNull
| JBool (b : bool)
| JNum (q : Q)
| JStr (s : string)
| JArr (l : list json)
| JObj (items : list (string * json)).

Fixpoint lookup (key : string) (items : list (string * json)) : option json :=
  match items with
  | [] => None
  | (k, v) :: rest => if (k =? key)%string then Some v else lookup key rest
  end.

(** [key in v] for a string [key]. *)
Definition json_in (key : string) (v : json) : pyresult bool :=
  match v with
  | JObj items => Return (match lookup key items with Some _ => true | None => false end)
  | JArr l =>
      Return (existsb (fun x => match x with JStr s => (s =? key)%string | _ => false end) l)
  | JStr s => Return (Py.contains key s)
  | _ => Raise TypeError
  end.

(** [v[key]] for a string [key]. *)
Definition json_getitem (key : string) (v : json) : pyresult json :=
  match v with
  | JObj items => getitem (lookup key items)
  | _ => Raise TypeError
  end.

(** [v[0]]. *)
Definition json_first (v : json) : pyresult json :=
  match v with
  | JArr (x :: _) => Return x
  | JArr [] => Raise IndexError
  | JStr (String c _) => Return (JStr (String c ""))
  | JStr "" => Raise IndexError
  | JObj _ => Raise KeyError
  | _ => Raise TypeError
  end.

(* ================================================================= *)
(** ** State, effects and the outside world *)

(** The effects the two services perform, in the order performed. *)
Inductive event : Type :=
| EvSearch (query : string)
| EvFindBySpecies (term : string)
| EvFindByLocation (term : string)
| EvChat (model system user : string)
| EvReadImage (image_path : string)
| EvPost (api_key base64_image : string).

(** The remote calls among them. *)
Definition is_remote_call (e : event) : bool :=
  match e with
  | EvChat _ _ _ | EvPost _ _ => true
  | _ => false
  end.

(** The two module globals and the log of effects, newest first. *)
Record state : Type := {
  rag_USE_FALLBACK_MODE : bool;
  ai_USE_FALLBACK_MODE : bool;
  log : list event
}.

(** What lies outside the core: the configured credential
    ([os.getenv] gives [None] when the variable is unset) and, for each
    collaborator, the outcome of a call given the effects so far. *)
Record world : Type := {
  OPENAI_API_KEY : option string;
  KnowledgeDocument_search : list event -> string -> pyresult (list document);
  Observation_find_by_species : list event -> string -> pyresult (list observation);
  Observation_find_by_location : list event -> string -> pyresult (list observation);
  (** [openai.chat.completions.create(...).choices[0].message.content] *)
  chat_completion : list event -> string -> string -> string -> pyresult string;
  (** [base64.b64encode(open(path, "rb").read()).decode("utf-8")] *)
  read_image_base64 : list event -> string -> pyresult string;
  (** [requests.post(...).json()] *)
  post_json : list event -> string -> string -> pyresult json
}.

(** Computations: read the world, thread the state, return or raise. *)
Definition M (A : Type) : Type := world -> state -> pyresult A * state.

Definition ret {A} (a : A) : M A := fun _ s => (Return a, s).

Definition bind {A B} (m : M A) (k : A -> M B) : M B :=
  fun w s =>
    match m w s with
    | (Return a, s') => k a w s'
    | (Raise e, s') => (Raise e, s')
    end.

Notation "x <- m ;; k" := (bind m (fun x => k))
  (at level 61, m at next level, right associativity).
Notation "m ;;; k" := (bind m (fun _ => k))
  (at level 61, right associativity).

(** [try: m except Exception as e: handler e]. *)
Definition try_except {A} (m : M A) (handler : exn -> M A) : M A :=
  fun w s =>
    match m w s with
    | (Return a, s') => (Return a, s')
    | (Raise e, s') => handler e w s'
    end.

Definition lift {A} (r : pyresult A) : M A := fun _ s => (r, s).

(** Perform an effect: log it and take its outcome from the world. *)
Definition perform {A} (e : event)
    (outcome : world -> list event -> pyresult A) : M A :=
  fun w s =>
    (outcome w (log s),
     {| rag_USE_FALLBACK_MODE := rag_USE_FALLBACK_MODE s;
        ai_USE_FALLBACK_MODE := ai_USE_FALLBACK_MODE s;
        log := e :: log s |}).

Definition config_api_key : M (option string) :=
  fun w s => (Return (OPENAI_API_KEY w), s).

(** The events logged by a run from [s] to [s']. *)
Definition new_events (s s' : state) : list event :=
  firstn (List.length (log s') - List.length (log s)) (log s').

(** The credential check shared by both services:
    ["None" in api_key or not api_key or len(api_key) < 20];
    on [None] the first disjunct raises [TypeError]. *)
Definition api_key_invalid (api_key : option string) : pyresult bool :=
  match api_key with
  | None => Raise TypeError
  | Some k =>
      Return (Py.contains "None" k || (k =? "")%string || (String.length k <? 20))
  end.

(* ================================================================= *)
(** ** services/rag_service.py *)

Module Rag.
Import Py.

Definition locations : list string :=
  ["margalla hills"; "rawal lake"; "shakarparian"; "daman-e-koh";
   "pir sohawa"; "trail"; "islamabad"].

Definition categories : list string :=
  ["bird"; "birds"; "mammal"; "mammals"; "reptile"; "reptiles";
   "amphibian"; "amphibians"; "fish"].

(** [for x in vocabulary: if x in query_lower: terms.append(x)] *)
Fixpoint scan (vocabulary : list string) (query_lower : string)
    (terms : list string) : list string :=
  match vocabulary with
  | [] => terms
  | x :: rest =>
      scan rest query_lower
           (if contains x query_lower then terms ++ [x] else terms)
  end.

Definition extract_key_terms (query : string) : list string :=
  let terms := [] in
  let query_lower := lower query in
  let terms := scan locations query_lower terms in
  let terms := scan categories query_lower terms in
  terms.

(** The first loop of [build_context], over [knowledge_docs[:3]]. *)
Fixpoint add_documents (docs : list document) (context : string)
    : pyresult string :=
  match docs with
  | [] => Return context
  | doc :: rest =>
      match doc_title doc, doc_source doc, doc_content doc with
      | Some title, Some source, Some content =>
          add_documents rest
            (context ++ "- " ++ title ++ " (" ++ source ++ "): "
                     ++ take 300 content ++ "..." ++ LF ++ LF)
      | _, _, _ => Raise KeyError
      end
  end.

(** The second loop, over [observations[:5]]. *)
Fixpoint add_observations (obs_list : list observation) (context : string)
    : string :=
  match obs_list with
  | [] => context
  | obs :: rest =>
      let species := get (obs_species_name obs) "Unknown species" in
      let location := get (obs_location obs) "Unknown location" in
      let date := get (obs_date_observed obs) "Unknown date" in
      add_observations rest
        (context ++ "- " ++ species ++ " observed at " ++ location
                 ++ " on " ++ date ++ LF)
  end.

Definition build_context (knowledge_docs : list document)
    (observations : list observation) : pyresult string :=
  let context := "Knowledge Base Information:" ++ LF in
  match add_documents (firstn 3 knowledge_docs) context with
  | Raise e => Raise e
  | Return context =>
      let context := context ++ LF ++ "Recent Observations:" ++ LF in
      Return (add_observations (firstn 5 observations) context)
  end.

(** The loop of [generate_fallback_response] that re-parses the context:
    the two lists grow together, one entry per matching line. *)
Fixpoint parse_lines (lines : list string)
    (species_mentioned locations_mentioned : list string)
    : list string * list string :=
  match lines with
  | [] => (species_mentioned, locations_mentioned)
  | line :: rest =>
      if startswith line "- " && contains "observed at" line then
        let species :=
          strip (replace "- " "" (nth 0 (split "observed at" line) "")) in
        let location :=
          strip (nth 0 (split "on" (nth 1 (split "observed at" line) "")) "") in
        parse_lines rest (species_mentioned ++ [species])
                    (locations_mentioned ++ [location])
      else parse_lines rest species_mentioned locations_mentioned
  end.

Definition parse_context (context : string) : list string * list string :=
  parse_lines (split LF context) [] [].

(** [for i, loc in enumerate(locations_mentioned): if keyword in
    loc.lower() and i < len(species_mentioned): out.append(species_mentioned[i])] *)
Fixpoint species_at (keyword : string) (i : nat)
    (locations_mentioned species_mentioned out : list string) : list string :=
  match locations_mentioned with
  | [] => out
  | loc :: rest =>
      species_at keyword (S i) rest species_mentioned
        (if contains keyword (lower loc) && (i <? List.length species_mentioned)
         then out ++ [nth i species_mentioned ""] else out)
  end.

Definition is_bird (s : string) : bool :=
  contains "bird" (lower s) || contains "duck" (lower s)
  || contains "eagle" (lower s).

Definition no_birds_text : string :=
  "I don't have specific information about birds in that area from our records.".

Definition no_margalla_text : string :=
  "Margalla Hills is known for its biodiversity, but I don't have specific observations in our current records.".

Definition no_lake_text : string :=
  "Rawal Lake is home to various species, but I don't have specific observations in our current records.".

Definition default_text : string :=
  "I don't have specific information about that in our current records. You can try asking about birds, mammals, or specific locations like Margalla Hills or Rawal Lake.".

(** The text computed by [generate_fallback_response]. *)
Definition fallback_text (query context : string) : string :=
  let query_lower := lower query in
  let '(species_mentioned, locations_mentioned) := parse_context context in
  if contains "bird" query_lower || contains "birds" query_lower then
    let bird_species := filter is_bird species_mentioned in
    match bird_species with
    | _ :: _ =>
        "Based on our records, the following bird species have been observed in Islamabad: "
          ++ join ", " bird_species ++ "."
    | [] => no_birds_text
    end
  else if contains "margalla" query_lower then
    let margalla_species :=
      species_at "margalla" 0 locations_mentioned species_mentioned [] in
    match margalla_species with
    | _ :: _ =>
        "In Margalla Hills, these species have been recorded: "
          ++ join ", " margalla_species ++ "."
    | [] => no_margalla_text
    end
  else if contains "rawal" query_lower || contains "lake" query_lower then
    let lake_species :=
      species_at "rawal" 0 locations_mentioned species_mentioned [] in
    match lake_species with
    | _ :: _ =>
        "At Rawal Lake, these species have been observed: "
          ++ join ", " lake_species ++ "."
    | [] => no_lake_text
    end
  else
    match species_mentioned with
    | _ :: _ =>
        "Based on our records, these species have been observed in Islamabad: "
          ++ join ", " (firstn 3 species_mentioned) ++ "."
    | [] => default_text
    end.

Definition set_fallback : M unit :=
  fun _ s =>
    (Return tt,
     {| rag_USE_FALLBACK_MODE := true;
        ai_USE_FALLBACK_MODE := ai_USE_FALLBACK_MODE s;
        log := log s |}).

Definition get_fallback : M bool :=
  fun _ s => (Return (rag_USE_FALLBACK_MODE s), s).

Definition generate_fallback_response (query context : string) : M string :=
  set_fallback ;;;
  ret (fallback_text query context).

Fixpoint spaces (n : nat) : string :=
  match n with
  | 0 => ""
  | S k => String " " (spaces k)
  end.

(** The system message; [indent] is the indentation of the literal. *)
Definition system_prompt (indent : nat) (context : string) : string :=
  "You are a biodiversity expert specialized in the flora and fauna of Islamabad, Pakistan. "
    ++ LF ++ spaces indent
    ++ "Answer questions based on the following context. If you don't know the answer based on the context, say so politely."
    ++ LF ++ spaces indent
    ++ LF ++ spaces indent ++ "Context:"
    ++ LF ++ spaces indent ++ context.

Definition chat (model : string) (indent : nat) (query context : string)
    : M string :=
  perform (EvChat model (system_prompt indent context) query)
          (fun w h => chat_completion w h model (system_prompt indent context) query).

Definition generate_response (query context : string) : M string :=
  fallback <- get_fallback ;;
  if fallback then generate_fallback_response query context
  else
    api_key <- config_api_key ;;
    invalid <- lift (api_key_invalid api_key) ;;
    if invalid then generate_fallback_response query context
    else
      try_except
        (try_except
           (chat "gpt-4-1106-preview" 20 query context)
           (fun model_error =>
              try_except
                (chat "gpt-3.5-turbo" 24 query context)
                (fun fallback_error =>
                   set_fallback ;;;
                   generate_fallback_response query context)))
        (fun e =>
           set_fallback ;;;
           generate_fallback_response query context).

Definition feature_of (obs : observation) (coordinates : pyval)
    : pyresult feature :=
  match py_str (get (obs_id obs) (IdStr "")) with
  | Raise e => Raise e
  | Return id_str =>
      Return
        {| feature_type := "Feature";
           feature_geometry :=
             {| geometry_type := "Point";
                geometry_coordinates := coordinates |};
           feature_properties :=
             {| prop_id := id_str;
                prop_species := get (obs_species_name obs) "Unknown";
                prop_date := get (obs_date_observed obs) "";
                prop_location := get (obs_location obs) "";
                prop_notes := get (obs_notes obs) "" |} |}
  end.

(** The loop of [format_observations]; a fault while building one feature
    is caught and the loop goes on. *)
Fixpoint format_loop (observations : list observation)
    (formatted : list feature) : list feature :=
  match observations with
  | [] => formatted
  | obs :: rest =>
      format_loop rest
        (match obs_coordinates obs with
         | Some coordinates =>
             if truthy coordinates then
               match feature_of obs coordinates with
               | Return f => formatted ++ [f]
               | Raise _ => formatted
               end
             else formatted
         | None => formatted
         end)
  end.

Definition format_observations (observations : list observation)
    : list feature :=
  format_loop observations [].

(** The loop of [process_query] over the key terms. *)
Fixpoint collect_observations (key_terms : list string)
    (observation_results : list observation) : M (list observation) :=
  match key_terms with
  | [] => ret observation_results
  | term :: rest =>
      species_observations <-
        perform (EvFindBySpecies term)
                (fun w h => Observation_find_by_species w h term) ;;
      location_observations <-
        perform (EvFindByLocation term)
                (fun w h => Observation_find_by_location w h term) ;;
      collect_observations rest
        (observation_results ++ species_observations ++ location_observations)
  end.

(** [[doc['title'] for doc in knowledge_results]] *)
Fixpoint titles (docs : list document) : pyresult (list string) :=
  match docs with
  | [] => Return []
  | doc :: rest =>
      match getitem (doc_title doc) with
      | Raise e => Raise e
      | Return t =>
          match titles rest with
          | Raise e => Raise e
          | Return ts => Return (t :: ts)
          end
      end
  end.

Definition error_result : QueryResult :=
  {| response := "I'm sorry, there was an error processing your query. Please try again.";
     knowledge_sources := [];
     observation_count := 0;
     observations := [] |}.

Definition process_query (query : string) : M QueryResult :=
  try_except
    (knowledge_results <-
       perform (EvSearch query) (fun w h => KnowledgeDocument_search w h query) ;;
     let key_terms := extract_key_terms query in
     observation_results <- collect_observations key_terms [] ;;
     context <- lift (build_context knowledge_results observation_results) ;;
     response <- generate_response query context ;;
     sources <- lift (titles knowledge_results) ;;
     ret {| response := response;
            knowledge_sources := sources;
            observation_count := List.length observation_results;
            observations := format_observations observation_results |})
    (fun e => ret error_result).

End Rag.

(* ================================================================= *)
(** ** services/ai_service.py *)

Module Ai.
Import Py.

(** An entry of [common_wildlife]. *)
Record wildlife : Type := {
  wl_name : string;
  wl_scientific : string;
  wl_category : string
}.

(** The dict [common_wildlife], in insertion order (the order in which
    [items()] yields it). *)
Definition common_wildlife : list (string * wildlife) :=
  [("leopard", {| wl_name := "Common Leopard";
                  wl_scientific := "Panthera pardus";
                  wl_category := "Mammal" |});
   ("deer", {| wl_name := "Barking Deer";
               wl_scientific := "Muntiacus muntjak";
               wl_category := "Mammal" |});
   ("fox", {| wl_name := "Red Fox";
              wl_scientific := "Vulpes vulpes";
              wl_category := "Mammal" |});
   ("bird", {| wl_name := "Himalayan Griffon";
               wl_scientific := "Gyps himalayensis";
               wl_category := "Bird" |});
   ("eagle", {| wl_name := "Steppe Eagle";
                wl_scientific := "Aquila nipalensis";
                wl_category := "Bird" |});
   ("duck", {| wl_name := "Mallard Duck";
               wl_scientific := "Anas platyrhynchos";
               wl_category := "Bird" |});
   ("snake", {| wl_name := "Indian Cobra";
                wl_scientific := "Naja naja";
                wl_category := "Reptile" |})].

Definition offline_note : string := "(Note: This is an offline identification)".

Definition known_result (info : wildlife) : IdentificationResult :=
  {| success := true;
     result := "This appears to be a " ++ wl_name info ++ " ("
                 ++ wl_scientific info ++ "), which is a " ++ wl_category info
                 ++ " found in Islamabad, Pakistan. " ++ offline_note;
     species := Some {| name := wl_name info; confidence := 7 # 10 |} |}.

Definition unknown_result : IdentificationResult :=
  {| success := true;
     result := "This appears to be a wildlife species from Islamabad, Pakistan. For accurate identification, please try again when the AI service is available. "
                 ++ offline_note;
     species := Some {| name := "Unknown Wildlife Species";
                        confidence := 5 # 10 |} |}.

(** [for keyword, info in table: if keyword in filename: return ...],
    then the default. *)
Fixpoint scan_wildlife (table : list (string * wildlife)) (filename : string)
    : IdentificationResult :=
  match table with
  | [] => unknown_result
  | (keyword, info) :: rest =>
      if contains keyword filename then known_result info
      else scan_wildlife rest filename
  end.

(** The name left after the prefix and the extension are removed. *)
Definition stem (image_path : string) : string :=
  let filename := lower (basename image_path) in
  let filename :=
    if contains "_" filename then
      match split_max 1 "_" filename with
      | _ :: part :: _ => part
      | _ => filename
      end
    else filename in
  fst (splitext filename).

Definition generate_fallback_identification (image_path : string)
    : IdentificationResult :=
  scan_wildlife common_wildlife (stem image_path).

Definition get_confidence_from_text (text : string) : Q :=
  if contains "high confidence" (lower text) then 9 # 10
  else if contains "medium confidence" (lower text) then 7 # 10
  else if contains "low confidence" (lower text) then 5 # 10
  else 6 # 10.

Definition extract_species_from_result (result_text : string)
    : option species_record :=
  if contains "identified as" (lower result_text) then
    let species_part :=
      strip (nth 1 (split "identified as" (lower result_text)) "") in
    let species_name := strip (nth 0 (split "." species_part) "") in
    Some {| name := species_name;
            confidence := get_confidence_from_text result_text |}
  else None.

Definition set_fallback : M unit :=
  fun _ s =>
    (Return tt,
     {| rag_USE_FALLBACK_MODE := rag_USE_FALLBACK_MODE s;
        ai_USE_FALLBACK_MODE := true;
        log := log s |}).

Definition get_fallback : M bool :=
  fun _ s => (Return (ai_USE_FALLBACK_MODE s), s).

(** [response_data['choices'][0]['message']['content']], then
    [extract_species_from_result], which needs a [str]. *)
Definition content_of (response_data : json) : pyresult string :=
  match json_getitem "choices" response_data with
  | Raise e => Raise e
  | Return choices =>
      match json_first choices with
      | Raise e => Raise e
      | Return choice =>
          match json_getitem "message" choice with
          | Raise e => Raise e
          | Return message =>
              match json_getitem "content" message with
              | Raise e => Raise e
              | Return (JStr text) => Return text
              | Return _ => Raise AttributeError
              end
          end
      end
  end.

Definition get_species_from_image (image_path : string)
    : M IdentificationResult :=
  fallback <- get_fallback ;;
  if fallback then ret (generate_fallback_identification image_path)
  else
    api_key <- config_api_key ;;
    invalid <- lift (api_key_invalid api_key) ;;
    if invalid then
      set_fallback ;;;
      ret (generate_fallback_identification image_path)
    else
      let key := get api_key "" in
      try_except
        (base64_image <-
           perform (EvReadImage image_path)
                   (fun w h => read_image_base64 w h image_path) ;;
         response_data <-
           perform (EvPost key base64_image)
                   (fun w h => post_json w h key base64_image) ;;
         has_choices <- lift (json_in "choices" response_data) ;;
         if has_choices then
           result <- lift (content_of response_data) ;;
           ret {| success := true;
                  result := result;
                  species := extract_species_from_result result |}
         else
           set_fallback ;;;
           ret (generate_fallback_identification image_path))
        (fun e =>
           set_fallback ;;;
           ret (generate_fallback_identification image_path)).

End Ai.

(* ================================================================= *)
(** ** Vocabulary of the specification *)

Import Py.

(** The text before the leftmost occurrence of [sep] (all of [s] when
    there is none): the first item of [s.split(sep)]. *)
Definition before (sep s : string) : string :=
  match find sep s with Some i => take i s | None => s end.

(** The text after the leftmost occurrence of [sep]. *)
Definition after (sep s : string) : string :=
  match find sep s with Some i => drop (i + String.length sep) s | None => "" end.



(** What the geo-formatter makes of one observation: nothing without a
    truthy [coordinates], nothing when building the feature faults, one
    point feature otherwise. *)
Definition features_of (obs : observation) : list feature :=
  match obs_coordinates obs with
  | Some coordinates =>
      if truthy coordinates then
        match py_str (get (obs_id obs) (IdStr "")) with
        | Return id_str =>
            [{| feature_type := "Feature";
                feature_geometry :=
                  {| geometry_type := "Point";
                     geometry_coordinates := coordinates |};
                feature_properties :=
                  {| prop_id := id_str;
                     prop_species := get (obs_species_name obs) "Unknown";
                     prop_date := get (obs_date_observed obs) "";
                     prop_location := get (obs_location obs) "";
                     prop_notes := get (obs_notes obs) "" |} |}]
        | Raise _ => []
        end
      else []
  | None => []
  end.

(** An observation sighted at the coordinates [73.05, 33.68]. *)
Definition sighting : observation :=
  {| obs_id := Some (IdInt 7);
     obs_species_name := Some "Common Leopard";
     obs_location := Some "Margalla Hills";
     obs_date_observed := Some "2024-03-01";
     obs_coordinates := Some (VList [VNum (7305 # 100); VNum (3368 # 100)]);
     obs_notes := None |}.

(** The same observation without the [coordinates] key, with an empty
    coordinates list, and with an id whose [str()] raises. *)
Definition sighting_without_coordinates : observation :=
  {| obs_id := obs_id sighting;
     obs_species_name := obs_species_name sighting;
     obs_location := obs_location sighting;
     obs_date_observed := obs_date_observed sighting;
     obs_coordinates := None;
     obs_notes := obs_notes sighting |}.

Definition sighting_with_empty_coordinates : observation :=
  {| obs_id := obs_id sighting;
     obs_species_name := obs_species_name sighting;
     obs_location := obs_location sighting;
     obs_date_observed := obs_date_observed sighting;
     obs_coordinates := Some (VList []);
     obs_notes := obs_notes sighting |}.

Definition sighting_with_faulty_id : observation :=
  {| obs_id := Some (IdObj (Raise ValueError));
     obs_species_name := obs_species_name sighting;
     obs_location := obs_location sighting;
     obs_date_observed := obs_date_observed sighting;
     obs_coordinates := obs_coordinates sighting;
     obs_notes := obs_notes sighting |}.

(** The answer of the bird rule, from the species parsed out of the
    context. *)
Definition bird_answer (species_mentioned : list string) : string :=
  match filter Rag.is_bird species_mentioned with
  | [] =>
      "I don't have specific information about birds in that area from our records."
  | bird_species =>
      "Based on our records, the following bird species have been observed in Islamabad: "
        ++ join ", " bird_species ++ "."
  end.

(** An observation of a leopard at Rawal Lake, and the context built from
    it alone. *)
Definition leopard_at_lake : observation :=
  {| obs_id := Some (IdInt 1);
     obs_species_name := Some "Common Leopard";
     obs_location := Some "Rawal Lake";
     obs_date_observed := Some "2024-05-17";
     obs_coordinates := None;
     obs_notes := None |}.

Definition lake_context : string :=
  "Knowledge Base Information:" ++ LF ++ LF ++ "Recent Observations:" ++ LF
    ++ "- Common Leopard observed at Rawal Lake on 2024-05-17" ++ LF.

(** A world without credential in which every collaborator fails, and the
    state of a freshly started process. *)
Definition offline_world : world :=
  {| OPENAI_API_KEY := None;
     KnowledgeDocument_search := fun _ _ => Raise OSError;
     Observation_find_by_species := fun _ _ => Raise OSError;
     Observation_find_by_location := fun _ _ => Raise OSError;
     chat_completion := fun _ _ _ _ => Raise RemoteError;
     read_image_base64 := fun _ _ => Raise OSError;
     post_json := fun _ _ _ => Raise RemoteError |}.

Definition fresh_state : state :=
  {| rag_USE_FALLBACK_MODE := false;
     ai_USE_FALLBACK_MODE := false;
     log := [] |}.

(** The line of the context for one document and for one observation. *)
Definition render_document (doc : document) : string :=
  "- " ++ get (doc_title doc) "" ++ " (" ++ get (doc_source doc) "" ++ "): "
    ++ take 300 (get (doc_content doc) "") ++ "..." ++ LF ++ LF.

Definition render_observation (obs : observation) : string :=
  "- " ++ get (obs_species_name obs) "Unknown species"
    ++ " observed at " ++ get (obs_location obs) "Unknown location"
    ++ " on " ++ get (obs_date_observed obs) "Unknown date" ++ LF.

(** A document with its three keys. *)
Definition complete (doc : document) : bool :=
  match doc_title doc, doc_source doc, doc_content doc with
  | Some _, Some _, Some _ => true
  | _, _, _ => false
  end.

Fixpoint repeat_string (n : nat) (s : string) : string :=
  match n with
  | 0 => ""
  | S k => s ++ repeat_string k s
  end.

Definition make_document (title source content : string) : document :=
  {| doc_title := Some title;
     doc_source := Some source;
     doc_content := Some content |}.

Definition make_observation (species location date : option string)
    : observation :=
  {| obs_id := None;
     obs_species_name := species;
     obs_location := location;
     obs_date_observed := date;
     obs_coordinates := None;
     obs_notes := None |}.

(** Four documents, the first with a content of 400 characters, and
    seven observations, the third without any field. *)
Definition four_documents : list document :=
  [make_document "Margalla Birds" "IWMB" (repeat_string 40 "0123456789");
   make_document "Rawal Lake Survey" "WWF" "Waterfowl count.";
   make_document "Trail 5 Flora" "CDA" "Pine and wild olive.";
   make_document "Fourth Title" "Fourth Source" "Fourth content."].

Definition seven_observations : list observation :=
  [make_observation (Some "Steppe Eagle") (Some "Trail 5") (Some "2024-01-01");
   make_observation (Some "Red Fox") (Some "Pir Sohawa") (Some "2024-01-02");
   make_observation None None None;
   make_observation (Some "Mallard Duck") (Some "Rawal Lake") (Some "2024-01-04");
   make_observation (Some "Barking Deer") None (Some "2024-01-05");
   make_observation (Some "Sixth Species") (Some "Sixth Place") (Some "2024-01-06");
   make_observation (Some "Seventh Species") (Some "Seventh Place") (Some "2024-01-07")].

Definition context_of_four_and_seven : string :=
  "Knowledge Base Information:" ++ LF
    ++ "- Margalla Birds (IWMB): " ++ repeat_string 30 "0123456789" ++ "..."
    ++ LF ++ LF
    ++ "- Rawal Lake Survey (WWF): Waterfowl count...." ++ LF ++ LF
    ++ "- Trail 5 Flora (CDA): Pine and wild olive...." ++ LF ++ LF
    ++ LF ++ "Recent Observations:" ++ LF
    ++ "- Steppe Eagle observed at Trail 5 on 2024-01-01" ++ LF
    ++ "- Red Fox observed at Pir Sohawa on 2024-01-02" ++ LF
    ++ "- Unknown species observed at Unknown location on Unknown date" ++ LF
    ++ "- Mallard Duck observed at Rawal Lake on 2024-01-04" ++ LF
    ++ "- Barking Deer observed at Unknown location on 2024-01-05" ++ LF.

(** The operations a process can call, and the state after a call and
    after a sequence of calls. *)
Inductive call : Type :=
| CallProcessQuery (query : string)
| CallGenerateResponse (query context : string)
| CallGenerateFallbackResponse (query context : string)
| CallGetSpeciesFromImage (image_path : string).

Definition run_call (w : world) (s : state) (c : call) : state :=
  match c with
  | CallProcessQuery query => snd (Rag.process_query query w s)
  | CallGenerateResponse query context =>
      snd (Rag.generate_response query context w s)
  | CallGenerateFallbackResponse query context =>
      snd (Rag.generate_fallback_response query context w s)
  | CallGetSpeciesFromImage image_path =>
      snd (Ai.get_species_from_image image_path w s)
  end.

Definition run_calls (w : world) (s : state) (calls : list call) : state :=
  fold_left (run_call w) calls s.

(** A flag that is set in [s] is set in [s'], and the log only grows. *)
Definition flags_kept (s s' : state) : Prop :=
  (rag_USE_FALLBACK_MODE s = true -> rag_USE_FALLBACK_MODE s' = true)
  /\ (ai_USE_FALLBACK_MODE s = true -> ai_USE_FALLBACK_MODE s' = true).

Definition keeps_flags {A} (m : M A) : Prop :=
  forall w s, flags_kept s (snd (m w s)).

(** The credential precheck in the words of the specification: non-empty,
    not the literal "None", at least 20 characters. *)
Definition precheck_as_specified (api_key : string) : bool :=
  negb (api_key =? "")%string && negb (api_key =? "None")%string
  && (20 <=? String.length api_key).

(** The precheck of the code: no occurrence of "None", non-empty, at
    least 20 characters. *)
Definition precheck (api_key : string) : bool :=
  negb (contains "None" api_key) && negb (api_key =? "")%string
  && (20 <=? String.length api_key).

(** A world with the given credential, in which the collaborators and
    the remote services answer. *)
Definition world_with_key (api_key : option string) : world :=
  {| OPENAI_API_KEY := api_key;
     KnowledgeDocument_search := fun _ _ => Return [];
     Observation_find_by_species := fun _ _ => Return [];
     Observation_find_by_location := fun _ _ => Return [];
     chat_completion := fun _ _ _ _ => Return "An answer.";
     read_image_base64 := fun _ _ => Return "aGVsbG8=";
     post_json := fun _ _ _ =>
       Return (JObj [("choices",
                      JArr [JObj [("message",
                                   JObj [("content",
                                          JStr "Identified as Red Fox. High confidence.")])]])]) |}.

Definition set_rag_fallback (s : state) : state :=
  {| rag_USE_FALLBACK_MODE := true;
     ai_USE_FALLBACK_MODE := ai_USE_FALLBACK_MODE s;
     log := log s |}.

Definition set_ai_fallback (s : state) : state :=
  {| rag_USE_FALLBACK_MODE := rag_USE_FALLBACK_MODE s;
     ai_USE_FALLBACK_MODE := true;
     log := log s |}.

(** A process in which a first call of each service met an unusable
    credential, and three later calls. *)
Definition short_key_world : world := world_with_key (Some "short").

Definition after_first_calls : state :=
  run_calls short_key_world fresh_state
    [CallGenerateResponse "Which birds?" lake_context;
     CallGetSpeciesFromImage "uuid123_leopard.jpg"].

Definition later_calls : list call :=
  [CallProcessQuery "birds"; CallGetSpeciesFromImage "fox.png";
   CallGenerateResponse "lake" lake_context].

(** A credential of 26 characters that contains "None". *)
Definition none_inside_world : world :=
  world_with_key (Some "sk-None-0123456789abcdefgh").

(** A credential that passes the precheck of the code. *)
Definition valid_key_world : world :=
  world_with_key (Some "sk-0123456789abcdefghijklmn").

(** The species name in the words of the specification: the text that
    follows "identified as" in the lowercased response, up to the next
    period, trimmed. *)
Definition name_as_specified (result_text : string) : string :=
  strip (before "." (after "identified as" (lower result_text))).

(** The species name the code extracts: the text between the first
    "identified as" and the next one (or the end), trimmed, cut at its
    first period and trimmed again. *)
Definition name_extracted (result_text : string) : string :=
  strip (before "."
           (strip (before "identified as"
                     (after "identified as" (lower result_text))))).

(** A response that says "identified as" twice before its first period. *)
Definition twice_identified : string :=
  "identified as a kite identified as a hawk. high confidence".

(** The three fields of an observation as [build_context] reads them, and
    the line it writes for them (without the final line feed). *)
Definition species_of (obs : observation) : string :=
  get (obs_species_name obs) "Unknown species".

Definition location_of (obs : observation) : string :=
  get (obs_location obs) "Unknown location".

Definition date_of (obs : observation) : string :=
  get (obs_date_observed obs) "Unknown date".

Definition line_of (species location date : string) : string :=
  "- " ++ species ++ " observed at " ++ location ++ " on " ++ date.

(** The part of the context before the observation lines. *)
Definition knowledge_block (docs : list document) : string :=
  "Knowledge Base Information:" ++ LF
    ++ String.concat "" (map render_document (firstn 3 docs))
    ++ LF ++ "Recent Observations:".

(** The location the parser recovers: the text before the first "on" of
    the location (all of it when there is none), trimmed. *)
Definition recovered_location (obs : observation) : string :=
  strip (before "on" (location_of obs)).

(** The proviso of the specification on a species name. *)
Definition species_as_specified (species : string) : bool :=
  negb (contains "observed at" species) && negb (contains "- " species).

(** An observation whose line is parsed back as written: no line feed in
    its three fields; a species name without "observed at", without "- "
    even when a space follows it, and without blanks around it; a
    location without "observed at". *)
Definition clean (obs : observation) : bool :=
  negb (contains LF (species_of obs))
  && negb (contains LF (location_of obs))
  && negb (contains LF (date_of obs))
  && negb (contains "observed at" (species_of obs))
  && negb (contains "- " (species_of obs ++ " "))
  && (strip (species_of obs) =? species_of obs)%string
  && negb (contains "observed at" (location_of obs)).

(** Observations that meet the proviso of the specification and are not
    recovered exactly, and observations with "on" in the location. *)
Definition padded_observations : list observation :=
  [make_observation (Some "Grey Heron ") (Some "Rawal Lake") (Some "2024-02-01");
   make_observation (Some "Eagle-") (Some "Trail 5") (Some "2024-02-02")].

Definition lake_observations : list observation :=
  [make_observation (Some "Mallard Duck") (Some "Front Lake") (Some "2024-02-03");
   make_observation (Some "Red Fox") None (Some "2024-02-04");
   make_observation (Some "Barking Deer") (Some "Trail 5") (Some "2024-02-05")].

Definition padded_context : string :=
  "Knowledge Base Information:" ++ LF ++ LF ++ "Recent Observations:" ++ LF
    ++ "- Grey Heron  observed at Rawal Lake on 2024-02-01" ++ LF
    ++ "- Eagle- observed at Trail 5 on 2024-02-02" ++ LF.

Definition lake_observations_context : string :=
  "Knowledge Base Information:" ++ LF ++ LF ++ "Recent Observations:" ++ LF
    ++ "- Mallard Duck observed at Front Lake on 2024-02-03" ++ LF
    ++ "- Red Fox observed at Unknown location on 2024-02-04" ++ LF
    ++ "- Barking Deer observed at Trail 5 on 2024-02-05" ++ LF.

(* ================================================================= *)
(** ** Further vocabulary: counting effects, pairing the parsed lists *)

(** The number of remote calls among some events. *)
Definition remote_count (events : list event) : nat :=
  List.length (filter is_remote_call events).

(** The events of the query side and those of the image side. *)
Definition is_query_event (e : event) : bool :=
  match e with
  | EvSearch _ | EvFindBySpecies _ | EvFindByLocation _ | EvChat _ _ _ => true
  | _ => false
  end.

Definition is_image_event (e : event) : bool :=
  match e with
  | EvReadImage _ | EvPost _ _ => true
  | _ => false
  end.

(** A world in which the first model fails and the second answers. *)
Definition second_tier_world : world :=
  {| OPENAI_API_KEY := Some "sk-0123456789abcdefghijklmn";
     KnowledgeDocument_search := fun _ _ => Return [];
     Observation_find_by_species := fun _ _ => Return [];
     Observation_find_by_location := fun _ _ => Return [];
     chat_completion := fun _ model _ _ =>
       if (model =? "gpt-3.5-turbo")%string then Return "A cheaper answer."
       else Raise RemoteError;
     read_image_base64 := fun _ _ => Return "aGVsbG8=";
     post_json := fun _ _ _ => Return (JObj [("error", JStr "quota")]) |}.

(** The text the remote path of [get_species_from_image] obtains, if the
    image can be read, the call answers, the payload has "choices" and
    its first choice carries a text. *)
Definition remote_text (w : world) (s : state) (api_key image_path : string)
    : option string :=
  match read_image_base64 w (log s) image_path with
  | Return base64_image =>
      match post_json w (EvReadImage image_path :: log s) api_key base64_image with
      | Return response_data =>
          match json_in "choices" response_data with
          | Return true =>
              match Ai.content_of response_data with
              | Return text => Some text
              | Raise _ => None
              end
          | _ => None
          end
      | Raise _ => None
      end
  | Raise _ => None
  end.

(** Worlds with a usable credential in which the image cannot be read,
    the payload is an error object, and the content is not a text. *)
Definition unreadable_world : world :=
  {| OPENAI_API_KEY := Some "sk-0123456789abcdefghijklmn";
     KnowledgeDocument_search := fun _ _ => Return [];
     Observation_find_by_species := fun _ _ => Return [];
     Observation_find_by_location := fun _ _ => Return [];
     chat_completion := fun _ _ _ _ => Return "An answer.";
     read_image_base64 := fun _ _ => Raise OSError;
     post_json := fun _ _ _ => Return JNull |}.

Definition null_content_world : world :=
  {| OPENAI_API_KEY := Some "sk-0123456789abcdefghijklmn";
     KnowledgeDocument_search := fun _ _ => Return [];
     Observation_find_by_species := fun _ _ => Return [];
     Observation_find_by_location := fun _ _ => Return [];
     chat_completion := fun _ _ _ _ => Return "An answer.";
     read_image_base64 := fun _ _ => Return "aGVsbG8=";
     post_json := fun _ _ _ =>
       Return (JObj [("choices",
                      JArr [JObj [("message",
                                   JObj [("content", JNull)])]])]) |}.

(** The titles of documents that all have one. *)
Definition titled (doc : document) : bool :=
  match doc_title doc with Some _ => true | None => false end.

Definition title_of (doc : document) : string := get (doc_title doc) "".

(** A computation that leaves a component of the state as it was. *)
Definition preserves {A B} (f : state -> B) (m : M A) : Prop :=
  forall w s, f (snd (m w s)) = f s.

(** A computation that only appends events accepted by [ok], of which at
    most [bound] are remote calls. *)
Definition emits {A} (ok : event -> bool) (bound : nat) (m : M A) : Prop :=
  forall w s,
    exists new,
      log (snd (m w s)) = (new ++ log s)%list
      /\ forallb ok new = true
      /\ remote_count new <= bound.

(** Four documents of which the last has no title. *)
Definition untitled_last : list document :=
  [make_document "Margalla Birds" "IWMB" "Checklist.";
   make_document "Rawal Lake Survey" "WWF" "Waterfowl count.";
   make_document "Trail 5 Flora" "CDA" "Pine and wild olive.";
   {| doc_title := None; doc_source := Some "CDA"; doc_content := Some "Notes." |}].

(** A world with a usable credential whose search returns the given
    documents and whose lookups return the given observations. *)
Definition answering_world (docs : list document)
    (found : list observation) : world :=
  {| OPENAI_API_KEY := Some "sk-0123456789abcdefghijklmn";
     KnowledgeDocument_search := fun _ _ => Return docs;
     Observation_find_by_species := fun _ _ => Return found;
     Observation_find_by_location := fun _ _ => Return [];
     chat_completion := fun _ _ _ _ => Return "An answer.";
     read_image_base64 := fun _ _ => Return "aGVsbG8=";
     post_json := fun _ _ _ => Return JNull |}.

(** The answer of a location rule, from the species paired with the
    locations parsed on the same lines. *)
Definition species_near (keyword : string)
    (species_mentioned locations_mentioned : list string) : list string :=
  map fst
    (filter (fun pair => contains keyword (lower (snd pair)))
            (combine species_mentioned locations_mentioned)).

Definition margalla_answer (species : list string) : string :=
  match species with
  | [] => Rag.no_margalla_text
  | _ => "In Margalla Hills, these species have been recorded: "
           ++ join ", " species ++ "."
  end.

Definition lake_answer (species : list string) : string :=
  match species with
  | [] => Rag.no_lake_text
  | _ => "At Rawal Lake, these species have been observed: "
           ++ join ", " species ++ "."
  end.

(** Clean observations in the hills and at the lake. *)
Definition hill_observations : list observation :=
  [make_observation (Some "Common Leopard") (Some "Margalla Hills Trail 3")
     (Some "2024-03-01");
   make_observation (Some "Mallard Duck") (Some "Rawal Lake") (Some "2024-03-02");
   make_observation (Some "Barking Deer") (Some "MARGALLA ridge")
     (Some "2024-03-03")].

Definition default_answer (species : list string) : string :=
  match species with
  | [] => Rag.default_text
  | _ => "Based on our records, these species have been observed in Islamabad: "
           ++ join ", " (firstn 3 species) ++ "."
  end.

(** A document with its content cut to the first 300 characters. *)
Definition truncate (doc : document) : document :=
  {| doc_title := doc_title doc;
     doc_source := doc_source doc;
     doc_content := option_map (take 300) (doc_content doc) |}.

(* ================================================================= *)
(** ** Basic facts about the string primitives *)

Lemma append_assoc (a b c : string) : (a ++ b) ++ c = a ++ (b ++ c).
Proof. induction a as [|x a IH]; simpl; [reflexivity | now rewrite IH]. Qed.

Lemma append_nil_r (a : string) : a ++ "" = a.
Proof. induction a as [|x a IH]; simpl; [reflexivity | now rewrite IH]. Qed.

Lemma length_append (a b : string) :
  String.length (a ++ b) = String.length a + String.length b.
Proof. induction a as [|x a IH]; simpl; [reflexivity | now rewrite IH]. Qed.

Lemma length_take (n : nat) (s : string) :
  String.length (take n s) = Nat.min n (String.length s).
Proof.
  revert s. induction n as [|n IH]; intros [|c s]; simpl; auto.
Qed.

Lemma take_drop (n : nat) (s : string) : take n s ++ drop n s = s.
Proof.
  revert s. induction n as [|n IH]; intros [|c s]; simpl; auto.
  now rewrite IH.
Qed.

Lemma prefix_split (p s : string) :
  prefix p s = true -> s = p ++ drop (String.length p) s.
Proof.
  revert s. induction p as [|a p IH]; intros [|b s]; simpl; try easy.
  destruct (ascii_dec a b) as [->|]; [|easy].
  intros H. now rewrite <- (IH s H).
Qed.

Lemma prefix_append (p t : string) : prefix p (p ++ t) = true.
Proof.
  induction p as [|a p IH]; simpl; [now destruct t|].
  destruct (ascii_dec a a); [exact IH | congruence].
Qed.

Lemma prefix_length (p s : string) :
  prefix p s = true -> String.length p <= String.length s.
Proof.
  intros H. rewrite (prefix_split p s H), length_append. lia.
Qed.

Lemma find_empty (sub : string) :
  sub <> "" -> find sub "" = None.
Proof.
  destruct sub; [congruence | reflexivity].
Qed.

Lemma find_cons (sub : string) (c : ascii) (s : string) :
  find sub (String c s)
  = if prefix sub (String c s) then Some 0 else option_map S (find sub s).
Proof. reflexivity. Qed.

Lemma find_bound (sub s : string) (i : nat) :
  find sub s = Some i -> i + String.length sub <= String.length s.
Proof.
  revert i. induction s as [|c s IH]; intros i.
  - destruct sub; simpl; intros H; inversion H; simpl; lia.
  - rewrite find_cons. destruct (prefix sub (String c s)) eqn:P.
    + intros H; inversion H; subst.
      apply prefix_length in P. simpl in P. simpl. lia.
    + destruct (find sub s) as [j|]; simpl; intros H; inversion H; subst.
      specialize (IH j eq_refl). lia.
Qed.

Lemma find_prefix (sub s : string) (i : nat) :
  find sub s = Some i -> prefix sub (drop i s) = true.
Proof.
  revert i. induction s as [|c s IH]; intros i.
  - destruct sub; simpl; intros H; inversion H; reflexivity.
  - rewrite find_cons. destruct (prefix sub (String c s)) eqn:P.
    + intros H; inversion H; subst. exact P.
    + destruct (find sub s) as [j|]; simpl; intros H; inversion H; subst.
      now apply IH.
Qed.

Lemma split_max_first (k : nat) (sep s : string) :
  nth 0 (split_max (S k) sep s) "" = before sep s.
Proof.
  unfold before. simpl. now destruct (find sep s).
Qed.

Lemma split_first (sep s : string) :
  sep <> "" -> nth 0 (split sep s) "" = before sep s.
Proof.
  intros Hsep. unfold split.
  destruct s as [|c s]; [|apply split_max_first].
  unfold before. rewrite find_empty by assumption. reflexivity.
Qed.

Lemma split_second (sep s : string) :
  sep <> "" -> contains sep s = true ->
  nth 1 (split sep s) "" = before sep (after sep s).
Proof.
  intros Hsep. unfold contains, after, split.
  destruct (find sep s) as [i|] eqn:F; [intros _|discriminate].
  assert (B := find_bound _ _ _ F).
  destruct (String.length s) as [|k] eqn:L.
  - destruct sep; [congruence | simpl in B; lia].
  - simpl. rewrite F. simpl.
    destruct k as [|k]; [|apply split_max_first].
    simpl.
    assert (D : drop (i + String.length sep) s = "").
    { assert (N : 1 <= String.length sep)
        by (destruct sep; [congruence | simpl; lia]).
      assert (E := take_drop (i + String.length sep) s).
      apply (f_equal String.length) in E.
      rewrite length_append, length_take, L in E.
      destruct (drop (i + String.length sep) s); [reflexivity|].
      simpl in E. lia. }
    rewrite D. unfold before. now rewrite find_empty.
Qed.

(** Where [sep in s] holds, [s.split(sep)] has a second item: the
    index [1] used by the parsers never raises [IndexError]. *)
Lemma split_has_second (sep s : string) :
  sep <> "" -> contains sep s = true -> 2 <= List.length (split sep s).
Proof.
  intros Hsep. unfold contains, split.
  destruct (find sep s) as [i|] eqn:F; [intros _|discriminate].
  assert (B := find_bound _ _ _ F).
  destruct (String.length s) as [|k] eqn:L.
  - destruct sep; [congruence | simpl in B; lia].
  - cbn [split_max]. rewrite F. cbn [List.length].
    assert (1 <= List.length (split_max k sep (drop (i + String.length sep) s))).
    { destruct k; cbn [split_max]; [simpl; lia|].
      destruct (find sep (drop _ _)); simpl; lia. }
    lia.
Qed.

(* ================================================================= *)
(** ** Occurrences across a concatenation *)

Lemma find_nil (sub : string) :
  find sub "" = if prefix sub "" then Some 0 else None.
Proof. reflexivity. Qed.

Lemma prefix_nil (s : string) : prefix "" s = true.
Proof. now destruct s. Qed.

Lemma prefix_app_l (p a b : string) :
  prefix p a = true -> prefix p (a ++ b) = true.
Proof.
  intros H. rewrite (prefix_split p a H), append_assoc. apply prefix_append.
Qed.

Lemma prefix_app_short (p a b : string) :
  prefix p (a ++ b) = true -> String.length p <= String.length a ->
  prefix p a = true.
Proof.
  revert a. induction p as [|x p IH]; intros a H L; [apply prefix_nil|].
  destruct a as [|y a]; [simpl in L; lia|].
  simpl in *. destruct (ascii_dec x y); [|discriminate].
  apply IH; [exact H | lia].
Qed.

Lemma prefix_app_long (p a b : string) :
  prefix p (a ++ b) = true -> String.length a <= String.length p ->
  prefix (drop (String.length a) p) b = true.
Proof.
  revert p. induction a as [|y a IH]; intros p H L; [exact H|].
  destruct p as [|x p]; [simpl in L; lia|].
  simpl in *. destruct (ascii_dec x y); [|discriminate].
  apply IH; [exact H | lia].
Qed.

Lemma contains_cons_false (sub : string) (c : ascii) (s : string) :
  contains sub (String c s) = false ->
  prefix sub (String c s) = false /\ contains sub s = false.
Proof.
  unfold contains. rewrite find_cons.
  destruct (prefix sub (String c s)); [discriminate|].
  destruct (find sub s); [discriminate | auto].
Qed.

(** An occurrence found in [a] is the leftmost one in [a ++ b]. *)
Lemma find_app_l (sub a b : string) (i : nat) :
  find sub a = Some i -> find sub (a ++ b) = Some i.
Proof.
  revert i. induction a as [|c a IH]; intros i.
  - rewrite find_nil. destruct (prefix sub "") eqn:P; [|discriminate].
    intros H; inversion H; subst. destruct sub; [|discriminate].
    simpl. destruct b; reflexivity.
  - rewrite find_cons. cbn [append]. rewrite find_cons.
    destruct (prefix sub (String c a)) eqn:P.
    + intros H; inversion H; subst.
      assert (Q := prefix_app_l sub (String c a) b P).
      cbn [append] in Q. now rewrite Q.
    + destruct (find sub a) as [j|] eqn:F; [|discriminate].
      cbn [option_map]. intros H; inversion H; subst.
      rewrite (IH j eq_refl).
      destruct (prefix sub (String c (a ++ b))) eqn:Q; [|reflexivity].
      assert (B := find_bound _ _ _ F).
      rewrite (prefix_app_short sub (String c a) b) in P;
        [discriminate | exact Q | simpl; lia].
Qed.

(** Without an occurrence in [a] and without one that straddles the
    junction, the leftmost occurrence in [a ++ b] is the one in [b]. *)
Lemma find_skip (sub a b : string) :
  contains sub a = false ->
  (forall k, 0 < k -> k < String.length sub ->
             prefix (drop k sub) b = false) ->
  find sub (a ++ b) = option_map (Nat.add (String.length a)) (find sub b).
Proof.
  intros Ha Hb. induction a as [|c a IH].
  - simpl. now destruct (find sub b).
  - apply contains_cons_false in Ha as [P Ha].
    cbn [append]. rewrite find_cons, (IH Ha).
    destruct (prefix sub (String c (a ++ b))) eqn:Q.
    + exfalso.
      destruct (Nat.le_gt_cases (String.length sub) (String.length (String c a)))
        as [L|L].
      * rewrite (prefix_app_short sub (String c a) b Q L) in P. discriminate.
      * assert (T := prefix_app_long sub (String c a) b Q
                       (Nat.lt_le_incl _ _ L)).
        rewrite Hb in T; [discriminate | simpl; lia | exact L].
    + destruct (find sub b); reflexivity.
Qed.

Lemma find_of_prefix (sub s : string) :
  prefix sub s = true -> find sub s = Some 0.
Proof.
  intros P. destruct s; [rewrite find_nil | rewrite find_cons]; now rewrite P.
Qed.

Lemma contains_app_l (sub a b : string) :
  contains sub a = true -> contains sub (a ++ b) = true.
Proof.
  unfold contains. destruct (find sub a) as [i|] eqn:F; [|discriminate].
  now rewrite (find_app_l sub a b i F).
Qed.

Lemma contains_app_r (sub a b : string) :
  contains sub b = true -> contains sub (a ++ b) = true.
Proof.
  unfold contains. intros H. induction a as [|c a IH]; [exact H|].
  cbn [append]. rewrite find_cons.
  destruct (prefix sub (String c (a ++ b))); [reflexivity|].
  now destruct (find sub (a ++ b)).
Qed.

Lemma contains_app_false (sub a b : string) :
  contains sub (a ++ b) = false ->
  contains sub a = false /\ contains sub b = false.
Proof.
  intros H. split.
  - destruct (contains sub a) eqn:E; [|reflexivity].
    now rewrite (contains_app_l sub a b E) in H.
  - destruct (contains sub b) eqn:E; [|reflexivity].
    now rewrite (contains_app_r sub a b E) in H.
Qed.

Lemma take_app_length (a b : string) : take (String.length a) (a ++ b) = a.
Proof. induction a as [|c a IH]; simpl; [now destruct b | now rewrite IH]. Qed.

Lemma drop_app_length (a b : string) : drop (String.length a) (a ++ b) = b.
Proof. induction a as [|c a IH]; simpl; [reflexivity | exact IH]. Qed.

Lemma take_app_le (n : nat) (a b : string) :
  n <= String.length a -> take n (a ++ b) = take n a.
Proof.
  revert a. induction n as [|n IH]; intros [|c a] L; simpl in *;
    try reflexivity; try lia; try (now destruct b).
  rewrite IH by lia. reflexivity.
Qed.

Lemma drop_app_le (n : nat) (a b : string) :
  n <= String.length a -> drop n (a ++ b) = drop n a ++ b.
Proof.
  revert a. induction n as [|n IH]; intros [|c a] L; simpl in *;
    try reflexivity; try lia.
  apply IH. lia.
Qed.

Lemma drop_add (n m : nat) (s : string) : drop (n + m) s = drop m (drop n s).
Proof.
  revert s. induction n as [|n IH]; intros s; [reflexivity|].
  destruct s as [|c s]; simpl; [now destruct m | apply IH].
Qed.

(** ** Lowercasing keeps the occurrences of a lowercase word *)

Lemma lower_append (a b : string) : lower (a ++ b) = lower a ++ lower b.
Proof. induction a as [|c a IH]; simpl; [reflexivity | now rewrite IH]. Qed.

Lemma find_decompose (sub s : string) (i : nat) :
  find sub s = Some i ->
  s = take i s ++ sub ++ drop (i + String.length sub) s.
Proof.
  intros F. rewrite <- (take_drop i s) at 1. f_equal.
  rewrite drop_add. apply prefix_split. now apply find_prefix.
Qed.

Lemma contains_middle (sub a b : string) : contains sub (a ++ sub ++ b) = true.
Proof.
  apply contains_app_r, contains_app_l. unfold contains.
  now rewrite (find_of_prefix sub sub) by (rewrite <- (append_nil_r sub) at 2;
                                           apply prefix_append).
Qed.

Lemma contains_lower (sub s : string) :
  lower sub = sub -> contains sub s = true -> contains sub (lower s) = true.
Proof.
  intros L. unfold contains at 1.
  destruct (find sub s) as [i|] eqn:F; [intros _|discriminate].
  rewrite (find_decompose sub s i F), !lower_append, L.
  apply contains_middle.
Qed.

(** ** Enough splits *)

Lemma length_drop (n : nat) (s : string) :
  String.length (drop n s) = String.length s - n.
Proof.
  revert s. induction n as [|n IH]; intros [|c s]; simpl; auto.
Qed.

Lemma split_max_empty (n : nat) (sep : string) :
  sep <> "" -> split_max n sep "" = [""].
Proof.
  intros Hsep. destruct n; cbn [split_max]; [reflexivity|].
  now rewrite find_empty.
Qed.

Lemma split_max_stable (sep : string) :
  sep <> "" ->
  forall n m s,
    String.length s <= n -> String.length s <= m ->
    split_max n sep s = split_max m sep s.
Proof.
  intros Hsep.
  assert (N : 1 <= String.length sep)
    by (destruct sep; [congruence | simpl; lia]).
  induction n as [|n IH]; intros m s Ln Lm.
  - destruct s; [|simpl in Ln; lia]. now rewrite !split_max_empty.
  - destruct m as [|m].
    + destruct s; [|simpl in Lm; lia]. now rewrite !split_max_empty.
    + cbn [split_max]. destruct (find sep s) as [i|] eqn:F; [|reflexivity].
      f_equal. assert (B := find_bound _ _ _ F).
      apply IH; rewrite length_drop; lia.
Qed.

(** [split_max] with a bound of at least the length of the string makes
    every cut there is: the bound of [split] is never the reason to stop. *)
Lemma split_max_enough (n : nat) (sep s : string) :
  sep <> "" -> String.length s <= n -> split_max n sep s = split sep s.
Proof.
  intros Hsep L. unfold split. now apply split_max_stable.
Qed.

Lemma split_found (sep s : string) (i : nat) :
  sep <> "" -> find sep s = Some i ->
  split sep s = take i s :: split sep (drop (i + String.length sep) s).
Proof.
  intros Hsep F. assert (B := find_bound _ _ _ F).
  assert (N : 1 <= String.length sep)
    by (destruct sep; [congruence | simpl; lia]).
  unfold split at 1. destruct (String.length s) as [|n] eqn:E; [lia|].
  cbn [split_max]. rewrite F. f_equal.
  apply split_max_enough; [exact Hsep|].
  rewrite length_drop. lia.
Qed.

Lemma split_not_found (sep s : string) :
  find sep s = None -> split sep s = [s].
Proof.
  intros F. unfold split. destruct (String.length s); cbn [split_max];
    [reflexivity | now rewrite F].
Qed.

(* ================================================================= *)
(** ** An occurrence at a known place, trimming *)

Ltac straddle :=
  let k := fresh "k" in
  let H1 := fresh in
  let H2 := fresh in
  intros k H1 H2; simpl in H2;
  do 12 (destruct k as [|k]; [try lia; try reflexivity|]); lia.

(** [sub] occurs in [a ++ sub ++ b] first at the end of [a]. *)
Lemma find_at (sub a b : string) :
  contains sub a = false ->
  (forall k, 0 < k -> k < String.length sub ->
             prefix (drop k sub) (sub ++ b) = false) ->
  find sub (a ++ sub ++ b) = Some (String.length a).
Proof.
  intros Ha Hb. rewrite (find_skip sub a (sub ++ b) Ha Hb).
  rewrite (find_of_prefix sub (sub ++ b) (prefix_append sub b)).
  simpl. f_equal. lia.
Qed.

Lemma before_at (sub a b : string) :
  find sub (a ++ sub ++ b) = Some (String.length a) ->
  before sub (a ++ sub ++ b) = a.
Proof.
  intros F. unfold before. rewrite F. apply take_app_length.
Qed.

Lemma after_at (sub a b : string) :
  find sub (a ++ sub ++ b) = Some (String.length a) ->
  after sub (a ++ sub ++ b) = b.
Proof.
  intros F. unfold after. rewrite F, drop_add, drop_app_length.
  apply drop_app_length.
Qed.

Lemma contains_cons_other (sub : string) (c : ascii) (s : string) :
  prefix sub (String c s) = false ->
  contains sub (String c s) = contains sub s.
Proof.
  intros P. unfold contains. rewrite find_cons, P.
  now destruct (find sub s).
Qed.

(** For a separator of one character there is no straddling. *)
Lemma contains_char_app (c : ascii) (a b : string) :
  contains (String c "") (a ++ b)
  = contains (String c "") a || contains (String c "") b.
Proof.
  destruct (contains (String c "") a) eqn:A.
  - now rewrite contains_app_l.
  - unfold contains at 1. rewrite find_skip; [|exact A|].
    + unfold contains. now destruct (find (String c "") b).
    + intros k H1 H2. simpl in H2. lia.
Qed.

Lemma take_app_add (n : nat) (a b : string) :
  take (String.length a + n) (a ++ b) = a ++ take n b.
Proof.
  induction a as [|c a IH]; simpl; [reflexivity | now rewrite IH].
Qed.

Lemma rstrip_app_space (s : string) : rstrip (s ++ " ") = rstrip s.
Proof.
  induction s as [|c s IH]; [reflexivity|].
  cbn [append rstrip]. now rewrite IH.
Qed.

Lemma strip_app_space (s : string) : strip (s ++ " ") = strip s.
Proof. unfold strip. now rewrite rstrip_app_space. Qed.

Lemma strip_space_cons (s : string) : strip (String " " s) = strip s.
Proof.
  unfold strip. cbn [rstrip].
  destruct (rstrip s) as [|c r]; reflexivity.
Qed.

Lemma replace_max_absent (count : nat) (old new s : string) :
  find old s = None -> replace_max count old new s = s.
Proof.
  intros F. destruct count; cbn [replace_max]; [reflexivity | now rewrite F].
Qed.

(* ================================================================= *)
(** ** Term extractor *)


Lemma scan_filter (vocabulary : list string) (query_lower : string)
    (terms : list string) :
  Rag.scan vocabulary query_lower terms
  = (terms ++ filter (fun x => contains x query_lower) vocabulary)%list.
Proof.
  revert terms.
  induction vocabulary as [|x rest IH]; intros terms; simpl.
  - now rewrite app_nil_r.
  - rewrite IH. destruct (contains x query_lower); simpl.
    + now rewrite <- app_assoc.
    + reflexivity.
Qed.

(** C6, as the spec states its example: the query about birds near
    Margalla Hills would yield exactly the two terms
    ["margalla hills"; "bird"].  It does not: the vocabulary also holds
    "birds", which is a substring of the query as well. *)
Lemma extract_key_terms_example_not_two_terms :
  Rag.extract_key_terms "Tell me about birds near Margalla Hills"
  <> ["margalla hills"; "bird"].
Proof.
  vm_compute. discriminate.
Qed.

(** C6 (amended): [extract_key_terms] returns, for every query, the
    terms of the location list and then of the category list that occur
    as substrings of the lowercased query, in vocabulary order; it is a
    total function; a vocabulary term that occurs in the query as typed is
    among them; the empty query yields no term; and the query about
    birds near Margalla Hills yields "margalla hills", "bird" and
    "birds". *)
Theorem extract_key_terms_spec :
  (forall query,
     Rag.extract_key_terms query
     = filter (fun term => contains term (lower query))
              (Rag.locations ++ Rag.categories))
  /\ (forall query term,
        In term (Rag.locations ++ Rag.categories) ->
        contains term query = true ->
        In term (Rag.extract_key_terms query))
  /\ Rag.extract_key_terms "" = []
  /\ Rag.extract_key_terms "Tell me about birds near Margalla Hills"
     = ["margalla hills"; "bird"; "birds"].
Proof.
  assert (E : forall query,
             Rag.extract_key_terms query
             = filter (fun term => contains term (lower query))
                      (Rag.locations ++ Rag.categories)).
  { intros query. unfold Rag.extract_key_terms.
    rewrite !scan_filter, filter_app. reflexivity. }
  split; [exact E|].
  split; [|split; reflexivity].
  intros query term Hin Hc. rewrite E. apply filter_In.
  split; [exact Hin|]. apply contains_lower; [|exact Hc].
  simpl in Hin.
  repeat (destruct Hin as [<-|Hin]; [reflexivity|]). contradiction.
Qed.

(** The term "bird" occurs in the query about birds near Margalla Hills
    as typed, and is among the terms extracted. *)
Lemma extract_key_terms_witness :
  In "bird" (Rag.extract_key_terms "Tell me about birds near Margalla Hills").
Proof.
  apply (proj1 (proj2 extract_key_terms_spec)).
  - vm_compute. tauto.
  - vm_compute. reflexivity.
Defined.

(* ================================================================= *)
(** ** Filename heuristic of the species identifier *)




Lemma scan_wildlife_cases (table : list (string * Ai.wildlife))
    (filename : string) :
  In (Ai.scan_wildlife table filename)
     (Ai.unknown_result :: map Ai.known_result (map snd table)).
Proof.
  induction table as [|[k i] table IH]; simpl; [auto|].
  destruct (contains k filename); [auto|].
  destruct IH as [IH|IH]; auto.
Qed.

Lemma fallback_identification_noted (image_path : string) :
  success (Ai.generate_fallback_identification image_path) = true
  /\ contains Ai.offline_note
       (result (Ai.generate_fallback_identification image_path)) = true.
Proof.
  unfold Ai.generate_fallback_identification.
  generalize (scan_wildlife_cases Ai.common_wildlife (Ai.stem image_path)).
  generalize (Ai.scan_wildlife Ai.common_wildlife (Ai.stem image_path)).
  intros r H. simpl in H.
  repeat (destruct H as [<-|H]; [split; vm_compute; reflexivity|]).
  contradiction.
Qed.



(* ================================================================= *)
(** ** Rule priority of the deterministic generator *)

Lemma fallback_text_bird_rule (query context : string) :
  contains "bird" (lower query) = true
  \/ contains "birds" (lower query) = true ->
  Rag.fallback_text query context
  = bird_answer (fst (Rag.parse_context context)).
Proof.
  intros H. unfold Rag.fallback_text, bird_answer.
  destruct (Rag.parse_context context) as [species_mentioned locations_mentioned].
  assert (E : contains "bird" (lower query) || contains "birds" (lower query)
              = true)
    by (destruct H as [-> | ->]; [reflexivity | apply orb_true_r]).
  rewrite E. simpl fst.
  now destruct (filter Rag.is_bird species_mentioned).
Qed.

(** C4: for every query whose lowercased text contains "bird" or "birds"
    the deterministic generator answers by the bird rule, whatever else
    the query mentions: the parsed species whose lowercased name contains
    "bird", "duck" or "eagle", joined by ", ", or, when there is none, the
    literal apology about birds; the question about birds near the lake,
    over a context with one leopard at Rawal Lake, gets that apology and
    not the answer of the lake rule. *)
Theorem generate_fallback_response_bird_rule :
  (forall query context w s,
     contains "bird" (lower query) = true
     \/ contains "birds" (lower query) = true ->
     fst (Rag.generate_fallback_response query context w s)
     = Return (bird_answer (fst (Rag.parse_context context))))
  /\ (forall query,
        contains "bird" query = true \/ contains "birds" query = true ->
        contains "bird" (lower query) = true
        \/ contains "birds" (lower query) = true)
  /\ (forall species_mentioned,
        bird_answer species_mentioned
        = "I don't have specific information about birds in that area from our records."
        \/ (filter Rag.is_bird species_mentioned <> []
            /\ bird_answer species_mentioned
               = "Based on our records, the following bird species have been observed in Islamabad: "
                   ++ join ", " (filter Rag.is_bird species_mentioned) ++ "."))
  /\ (forall name,
        Rag.is_bird name
        = contains "bird" (lower name) || contains "duck" (lower name)
          || contains "eagle" (lower name))
  /\ Rag.build_context [] [leopard_at_lake] = Return lake_context
  /\ Rag.parse_context lake_context = (["Common Leopard"], ["Rawal Lake"])
  /\ Rag.fallback_text "What birds live near the lake?" lake_context
     = "I don't have specific information about birds in that area from our records."
  /\ Rag.fallback_text "What lives near the lake?" lake_context
     = "At Rawal Lake, these species have been observed: Common Leopard.".
Proof.
  split.
  { intros query context w s H.
    unfold Rag.generate_fallback_response, bind, Rag.set_fallback, ret.
    simpl. now rewrite fallback_text_bird_rule. }
  split.
  { intros query [H|H]; [left | right]; now apply contains_lower. }
  split.
  { intros l. unfold bird_answer.
    destruct (filter Rag.is_bird l) eqn:E; [left; reflexivity|].
    right. split; [discriminate | reflexivity]. }
  split; [reflexivity|].
  repeat split; vm_compute; reflexivity.
Qed.

(** The bird rule on the question about birds near the lake. *)
Lemma generate_fallback_response_bird_rule_witness :
  fst (Rag.generate_fallback_response "What birds live near the lake?"
         lake_context offline_world fresh_state)
  = Return (bird_answer (fst (Rag.parse_context lake_context))).
Proof.
  apply (proj1 generate_fallback_response_bird_rule). left.
  vm_compute. reflexivity.
Defined.

(* ================================================================= *)
(** ** Context builder *)

Lemma concat_empty_cons (x : string) (l : list string) :
  String.concat "" (x :: l) = x ++ String.concat "" l.
Proof.
  destruct l; simpl; [now rewrite append_nil_r | reflexivity].
Qed.

Lemma add_documents_complete (docs : list document) (context : string) :
  forallb complete docs = true ->
  Rag.add_documents docs context
  = Return (context ++ String.concat "" (map render_document docs)).
Proof.
  revert context.
  induction docs as [|doc rest IH]; intros context H.
  - simpl. now rewrite append_nil_r.
  - cbn [forallb] in H. apply andb_true_iff in H as [Hdoc Hrest].
    cbn [map]. rewrite concat_empty_cons.
    unfold complete in Hdoc. cbn [Rag.add_documents].
    unfold render_document.
    destruct (doc_title doc) as [t|]; [|discriminate].
    destruct (doc_source doc) as [src|]; [|discriminate].
    destruct (doc_content doc) as [c|]; [|discriminate].
    rewrite (IH _ Hrest). cbn [get]. f_equal.
    now rewrite !append_assoc.
Qed.

Lemma add_documents_incomplete (docs : list document) (context : string) :
  forallb complete docs = false ->
  Rag.add_documents docs context = Raise KeyError.
Proof.
  revert context.
  induction docs as [|doc rest IH]; intros context H; [discriminate|].
  cbn [forallb] in H. cbn [Rag.add_documents]. unfold complete in H.
  destruct (doc_title doc) as [t|]; [|reflexivity].
  destruct (doc_source doc) as [src|]; [|reflexivity].
  destruct (doc_content doc) as [c|]; [|reflexivity].
  apply IH. exact H.
Qed.

Lemma add_observations_render (obs_list : list observation) (context : string) :
  Rag.add_observations obs_list context
  = context ++ String.concat "" (map render_observation obs_list).
Proof.
  revert context.
  induction obs_list as [|obs rest IH]; intros context.
  - simpl. now rewrite append_nil_r.
  - cbn [map]. rewrite concat_empty_cons. cbn [Rag.add_observations].
    rewrite IH. unfold render_observation. now rewrite !append_assoc.
Qed.

Lemma build_context_complete (docs : list document)
    (observations : list observation) :
  forallb complete (firstn 3 docs) = true ->
  Rag.build_context docs observations
  = Return ("Knowledge Base Information:" ++ LF
              ++ String.concat "" (map render_document (firstn 3 docs))
              ++ LF ++ "Recent Observations:" ++ LF
              ++ String.concat "" (map render_observation (firstn 5 observations))).
Proof.
  intros H. unfold Rag.build_context.
  rewrite (add_documents_complete _ _ H), add_observations_render.
  f_equal. now rewrite !append_assoc.
Qed.

Lemma firstn_exact {A} (n : nat) (l more : list A) :
  List.length l = n -> firstn n (l ++ more) = l.
Proof.
  intros <-. rewrite firstn_app, Nat.sub_diag, firstn_all. simpl.
  apply app_nil_r.
Qed.

Lemma take_prefix (n : nat) (s : string) : prefix (take n s) s = true.
Proof.
  rewrite <- (take_drop n s) at 2. apply prefix_append.
Qed.

(** C5: [build_context] renders, under the header "Knowledge Base
    Information:", the first three documents, each as
    "- title (source): ", the first 300 characters of its content and
    "...", and under the header "Recent Observations:" the first five
    observations, each as "- species observed at location on date" with
    "Unknown species", "Unknown location" and "Unknown date" for missing
    fields (a document among the first three that lacks its title,
    source or content makes the lookup raise [KeyError]); later documents
    and observations do not change the result;
    for four documents and seven observations the text holds exactly the
    first three and the first five. *)
Theorem build_context_spec :
  (forall docs observations,
     forallb complete (firstn 3 docs) = true ->
     Rag.build_context docs observations
     = Return ("Knowledge Base Information:" ++ LF
                 ++ String.concat "" (map render_document (firstn 3 docs))
                 ++ LF ++ "Recent Observations:" ++ LF
                 ++ String.concat ""
                      (map render_observation (firstn 5 observations))))
  /\ (forall docs observations,
        forallb complete (firstn 3 docs) = false ->
        Rag.build_context docs observations = Raise KeyError)
  /\ (forall docs observations more_docs more_observations,
        List.length docs = 3 -> List.length observations = 5 ->
        Rag.build_context (docs ++ more_docs)
                          (observations ++ more_observations)
        = Rag.build_context docs observations)
  /\ (forall title source content,
        render_document (make_document title source content)
        = "- " ++ title ++ " (" ++ source ++ "): " ++ take 300 content
            ++ "..." ++ LF ++ LF
        /\ String.length (take 300 content) = Nat.min 300 (String.length content)
        /\ prefix (take 300 content) content = true)
  /\ (forall species location date,
        render_observation
          (make_observation (Some species) (Some location) (Some date))
        = "- " ++ species ++ " observed at " ++ location ++ " on " ++ date ++ LF)
  /\ render_observation (make_observation None None None)
     = "- Unknown species observed at Unknown location on Unknown date" ++ LF
  /\ Rag.build_context four_documents seven_observations
     = Return context_of_four_and_seven.
Proof.
  split; [exact build_context_complete|].
  split.
  { intros docs observations H. unfold Rag.build_context.
    now rewrite (add_documents_incomplete _ _ H). }
  split.
  { intros docs observations more_docs more_obs Hd Ho.
    unfold Rag.build_context.
    rewrite (firstn_exact 3 docs more_docs Hd).
    rewrite (firstn_exact 5 observations more_obs Ho).
    rewrite (firstn_all2 docs) by lia.
    now rewrite (firstn_all2 observations) by lia. }
  split.
  { intros title source content. split; [reflexivity|].
    split; [apply length_take | apply take_prefix]. }
  split; [reflexivity|].
  split; [reflexivity|].
  vm_compute. reflexivity.
Qed.

(** The context of four complete documents and seven observations. *)
Lemma build_context_witness :
  Rag.build_context four_documents seven_observations
  = Return ("Knowledge Base Information:" ++ LF
              ++ String.concat ""
                   (map render_document (firstn 3 four_documents))
              ++ LF ++ "Recent Observations:" ++ LF
              ++ String.concat ""
                   (map render_observation (firstn 5 seven_observations)))
  /\ Rag.build_context (firstn 3 four_documents ++ [nth 3 four_documents
                          (make_document "" "" "")])
                       (firstn 5 seven_observations ++ skipn 5 seven_observations)
     = Rag.build_context (firstn 3 four_documents) (firstn 5 seven_observations).
Proof.
  destruct build_context_spec as (Hrender & _ & Hcut & _).
  split.
  - apply Hrender. reflexivity.
  - apply Hcut; reflexivity.
Defined.

(* ================================================================= *)
(** ** Observation geo-formatter *)

Lemma format_loop_flat_map (observations : list observation)
    (formatted : list feature) :
  Rag.format_loop observations formatted
  = (formatted ++ flat_map features_of observations)%list.
Proof.
  revert formatted.
  induction observations as [|obs rest IH]; intros formatted; simpl.
  - now rewrite app_nil_r.
  - rewrite IH. unfold features_of, Rag.feature_of.
    destruct (obs_coordinates obs) as [c|]; [|reflexivity].
    destruct (truthy c); [|reflexivity].
    destruct (py_str (get (obs_id obs) (IdStr ""))); simpl.
    + now rewrite <- app_assoc.
    + reflexivity.
Qed.

Lemma format_observations_flat_map (observations : list observation) :
  Rag.format_observations observations = flat_map features_of observations.
Proof.
  unfold Rag.format_observations. now rewrite format_loop_flat_map.
Qed.

Lemma features_of_shape (obs : observation) (f : feature) :
  In f (features_of obs) ->
  feature_type f = "Feature"
  /\ geometry_type (feature_geometry f) = "Point"
  /\ obs_coordinates obs = Some (geometry_coordinates (feature_geometry f))
  /\ truthy (geometry_coordinates (feature_geometry f)) = true
  /\ py_str (get (obs_id obs) (IdStr "")) = Return (prop_id (feature_properties f))
  /\ prop_species (feature_properties f) = get (obs_species_name obs) "Unknown"
  /\ prop_date (feature_properties f) = get (obs_date_observed obs) ""
  /\ prop_location (feature_properties f) = get (obs_location obs) ""
  /\ prop_notes (feature_properties f) = get (obs_notes obs) "".
Proof.
  unfold features_of.
  destruct (obs_coordinates obs) as [c|]; [|intros []].
  destruct (truthy c) eqn:T; [|intros []].
  destruct (py_str (get (obs_id obs) (IdStr ""))) as [id_str|e]; [|intros []].
  intros [<-|[]]. simpl. rewrite T. repeat split; reflexivity.
Qed.

(** C9: [format_observations] formats each observation on its own, in
    order: an observation without a truthy [coordinates] gives nothing,
    one whose formatting faults gives nothing and the others are kept;
    every feature emitted is a "Feature" with a "Point" geometry that
    carries the coordinates of its observation, the stringified id and
    the species, date, location and notes with their defaults; an
    observation at [73.05, 33.68] gives a point feature with those
    coordinates. *)
Theorem format_observations_spec :
  (forall observations,
     Rag.format_observations observations
     = flat_map features_of observations)
  /\ (forall before_obs obs after_obs,
        Rag.format_observations (before_obs ++ obs :: after_obs)
        = (Rag.format_observations before_obs ++ features_of obs
             ++ Rag.format_observations after_obs)%list)
  /\ (forall obs,
        (obs_coordinates obs = None
         \/ (exists c, obs_coordinates obs = Some c /\ truthy c = false)
         \/ (exists e, py_str (get (obs_id obs) (IdStr "")) = Raise e)) ->
        features_of obs = [])
  /\ (forall observations f,
        In f (Rag.format_observations observations) ->
        exists obs,
          In obs observations
          /\ feature_type f = "Feature"
          /\ geometry_type (feature_geometry f) = "Point"
          /\ obs_coordinates obs
             = Some (geometry_coordinates (feature_geometry f))
          /\ truthy (geometry_coordinates (feature_geometry f)) = true
          /\ py_str (get (obs_id obs) (IdStr ""))
             = Return (prop_id (feature_properties f))
          /\ prop_species (feature_properties f)
             = get (obs_species_name obs) "Unknown"
          /\ prop_date (feature_properties f) = get (obs_date_observed obs) ""
          /\ prop_location (feature_properties f) = get (obs_location obs) ""
          /\ prop_notes (feature_properties f) = get (obs_notes obs) "")
  /\ Rag.format_observations
       [sighting_without_coordinates; sighting_with_faulty_id; sighting;
        sighting_with_empty_coordinates]
     = [{| feature_type := "Feature";
           feature_geometry :=
             {| geometry_type := "Point";
                geometry_coordinates :=
                  VList [VNum (7305 # 100); VNum (3368 # 100)] |};
           feature_properties :=
             {| prop_id := "7";
                prop_species := "Common Leopard";
                prop_date := "2024-03-01";
                prop_location := "Margalla Hills";
                prop_notes := "" |} |}].
Proof.
  split; [exact format_observations_flat_map|].
  split.
  { intros a obs b. rewrite !format_observations_flat_map.
    rewrite flat_map_app. reflexivity. }
  split.
  { intros obs [H|[(c & H & T)|(e & H)]]; unfold features_of.
    - now rewrite H.
    - now rewrite H, T.
    - destruct (obs_coordinates obs) as [c|]; [|reflexivity].
      destruct (truthy c); [|reflexivity]. now rewrite H. }
  split; [|reflexivity].
  intros observations f. rewrite format_observations_flat_map.
  rewrite in_flat_map. intros (obs & Hin & Hf).
  exists obs. split; [exact Hin|]. now apply features_of_shape.
Qed.

(** The formatter on a batch holding an observation without
    coordinates: that observation gives no feature. *)
Lemma format_observations_witness :
  features_of sighting_without_coordinates = []
  /\ exists obs,
       In obs [sighting_without_coordinates; sighting]
       /\ geometry_type
            (feature_geometry
               (hd (Build_feature "" (Build_geometry "" VNone)
                      (Build_properties "" "" "" "" ""))
                   (Rag.format_observations
                      [sighting_without_coordinates; sighting])))
          = "Point"
       /\ obs_coordinates obs
          = Some (VList [VNum (7305 # 100); VNum (3368 # 100)]).
Proof.
  destruct format_observations_spec as (_ & _ & Hdrop & Hshape & _).
  split.
  - apply Hdrop. left. reflexivity.
  - destruct (Hshape [sighting_without_coordinates; sighting]
                (hd (Build_feature "" (Build_geometry "" VNone)
                       (Build_properties "" "" "" "" ""))
                    (Rag.format_observations
                       [sighting_without_coordinates; sighting])))
      as (obs & Hin & _ & Hpoint & Hc & _).
    + vm_compute. left. reflexivity.
    + exists obs. split; [exact Hin|]. split; [exact Hpoint|]. exact Hc.
Defined.

(* ================================================================= *)
(** ** The fallback flags never go back *)

Lemma flags_kept_refl (s : state) : flags_kept s s.
Proof. split; auto. Qed.

Lemma flags_kept_trans (s1 s2 s3 : state) :
  flags_kept s1 s2 -> flags_kept s2 s3 -> flags_kept s1 s3.
Proof. intros [A B] [C D]. split; auto. Qed.

Lemma keeps_flags_ret {A} (a : A) : keeps_flags (ret a).
Proof. intros w s. apply flags_kept_refl. Qed.

Lemma keeps_flags_lift {A} (r : pyresult A) : keeps_flags (lift r).
Proof. intros w s. apply flags_kept_refl. Qed.

Lemma keeps_flags_config : keeps_flags config_api_key.
Proof. intros w s. apply flags_kept_refl. Qed.

Lemma keeps_flags_perform {A} (e : event)
    (outcome : world -> list event -> pyresult A) :
  keeps_flags (perform e outcome).
Proof. intros w s. split; auto. Qed.

Lemma keeps_flags_bind {A B} (m : M A) (k : A -> M B) :
  keeps_flags m -> (forall a, keeps_flags (k a)) -> keeps_flags (bind m k).
Proof.
  intros Hm Hk w s. unfold bind. specialize (Hm w s).
  destruct (m w s) as [[a|e] s']; simpl in *; [|exact Hm].
  eapply flags_kept_trans; [exact Hm | apply Hk].
Qed.

Lemma keeps_flags_try {A} (m : M A) (handler : exn -> M A) :
  keeps_flags m -> (forall e, keeps_flags (handler e)) ->
  keeps_flags (try_except m handler).
Proof.
  intros Hm Hh w s. unfold try_except. specialize (Hm w s).
  destruct (m w s) as [[a|e] s']; simpl in *; [exact Hm|].
  eapply flags_kept_trans; [exact Hm | apply Hh].
Qed.

Lemma keeps_flags_if {A} (b : bool) (m1 m2 : M A) :
  keeps_flags m1 -> keeps_flags m2 -> keeps_flags (if b then m1 else m2).
Proof. now destruct b. Qed.

Lemma keeps_flags_rag_get : keeps_flags Rag.get_fallback.
Proof. intros w s. apply flags_kept_refl. Qed.

Lemma keeps_flags_rag_set : keeps_flags Rag.set_fallback.
Proof. intros w s. split; auto. Qed.

Lemma keeps_flags_ai_get : keeps_flags Ai.get_fallback.
Proof. intros w s. apply flags_kept_refl. Qed.

Lemma keeps_flags_ai_set : keeps_flags Ai.set_fallback.
Proof. intros w s. split; auto. Qed.

Create HintDb flags.
#[local] Hint Resolve keeps_flags_ret keeps_flags_lift keeps_flags_config
  keeps_flags_perform keeps_flags_rag_get keeps_flags_rag_set
  keeps_flags_ai_get keeps_flags_ai_set : flags.

Ltac keep_flags :=
  repeat first
    [ progress auto with flags
    | apply keeps_flags_bind; [|intros ?]
    | apply keeps_flags_try; [|intros ?]
    | apply keeps_flags_if ].

Lemma keeps_flags_generate_fallback_response (query context : string) :
  keeps_flags (Rag.generate_fallback_response query context).
Proof. unfold Rag.generate_fallback_response. keep_flags. Qed.

#[local] Hint Resolve keeps_flags_generate_fallback_response : flags.

Lemma keeps_flags_generate_response (query context : string) :
  keeps_flags (Rag.generate_response query context).
Proof. unfold Rag.generate_response, Rag.chat. keep_flags. Qed.

Lemma keeps_flags_collect (key_terms : list string)
    (observation_results : list observation) :
  keeps_flags (Rag.collect_observations key_terms observation_results).
Proof.
  revert observation_results.
  induction key_terms as [|term rest IH]; intros acc; simpl; keep_flags.
Qed.

#[local] Hint Resolve keeps_flags_generate_response keeps_flags_collect : flags.

Lemma keeps_flags_process_query (query : string) :
  keeps_flags (Rag.process_query query).
Proof. unfold Rag.process_query. keep_flags. Qed.

Lemma keeps_flags_get_species_from_image (image_path : string) :
  keeps_flags (Ai.get_species_from_image image_path).
Proof. unfold Ai.get_species_from_image. keep_flags. Qed.

Lemma run_call_keeps_flags (w : world) (s : state) (c : call) :
  flags_kept s (run_call w s c).
Proof.
  destruct c; cbn [run_call].
  - apply keeps_flags_process_query.
  - apply keeps_flags_generate_response.
  - apply keeps_flags_generate_fallback_response.
  - apply keeps_flags_get_species_from_image.
Qed.

Lemma run_calls_keeps_flags (w : world) (calls : list call) (s : state) :
  flags_kept s (run_calls w s calls).
Proof.
  revert s. induction calls as [|c calls IH]; intros s; simpl.
  - apply flags_kept_refl.
  - eapply flags_kept_trans; [apply run_call_keeps_flags | apply IH].
Qed.

Lemma generate_response_in_fallback (w : world) (s : state)
    (query context : string) :
  rag_USE_FALLBACK_MODE s = true ->
  Rag.generate_response query context w s
  = (Return (Rag.fallback_text query context), s).
Proof.
  intros H. unfold Rag.generate_response, bind, Rag.get_fallback.
  rewrite H. unfold Rag.generate_fallback_response, bind, Rag.set_fallback, ret.
  destruct s; simpl in *; now subst.
Qed.

Lemma get_species_from_image_in_fallback (w : world) (s : state)
    (image_path : string) :
  ai_USE_FALLBACK_MODE s = true ->
  Ai.get_species_from_image image_path w s
  = (Return (Ai.generate_fallback_identification image_path), s).
Proof.
  intros H. unfold Ai.get_species_from_image, bind, Ai.get_fallback.
  now rewrite H.
Qed.

(** C1: in each service the fallback flag is monotone.  From a state in
    which the flag of a family is set, after any sequence of calls of the
    operations, in any world, the flag is still set, and a call of
    [generate_response] (of [get_species_from_image]) then returns the
    result of the deterministic path and leaves the state, and with it
    the log of effects, as it was: no remote call is attempted. *)
Theorem fallback_mode_monotone :
  forall (w : world) (s : state) (calls : list call),
    (rag_USE_FALLBACK_MODE s = true ->
     rag_USE_FALLBACK_MODE (run_calls w s calls) = true
     /\ forall query context,
          Rag.generate_response query context w (run_calls w s calls)
          = (Return (Rag.fallback_text query context), run_calls w s calls))
    /\ (ai_USE_FALLBACK_MODE s = true ->
        ai_USE_FALLBACK_MODE (run_calls w s calls) = true
        /\ forall image_path,
             Ai.get_species_from_image image_path w (run_calls w s calls)
             = (Return (Ai.generate_fallback_identification image_path),
                run_calls w s calls)).
Proof.
  intros w s calls.
  destruct (run_calls_keeps_flags w calls s) as [Hrag Hai].
  split; intros H.
  - split; [auto|]. intros query context.
    apply generate_response_in_fallback; auto.
  - split; [auto|]. intros image_path.
    apply get_species_from_image_in_fallback; auto.
Qed.

(** Both flags are set by a first call each, with an unusable credential;
    they are still set after further calls, which log no remote call. *)
Lemma fallback_mode_monotone_witness :
  rag_USE_FALLBACK_MODE after_first_calls = true
  /\ ai_USE_FALLBACK_MODE after_first_calls = true
  /\ rag_USE_FALLBACK_MODE
       (run_calls short_key_world after_first_calls later_calls) = true
  /\ ai_USE_FALLBACK_MODE
       (run_calls short_key_world after_first_calls later_calls) = true
  /\ Rag.generate_response "lake" lake_context short_key_world
       (run_calls short_key_world after_first_calls later_calls)
     = (Return (Rag.fallback_text "lake" lake_context),
        run_calls short_key_world after_first_calls later_calls)
  /\ Ai.get_species_from_image "fox.png" short_key_world
       (run_calls short_key_world after_first_calls later_calls)
     = (Return (Ai.generate_fallback_identification "fox.png"),
        run_calls short_key_world after_first_calls later_calls).
Proof.
  assert (Hrag : rag_USE_FALLBACK_MODE after_first_calls = true)
    by reflexivity.
  assert (Hai : ai_USE_FALLBACK_MODE after_first_calls = true)
    by reflexivity.
  destruct (fallback_mode_monotone short_key_world after_first_calls
              later_calls) as [Mrag Mai].
  destruct (Mrag Hrag) as [Krag Qrag]. destruct (Mai Hai) as [Kai Qai].
  repeat split; auto.
Defined.

(* ================================================================= *)
(** ** The credential precheck *)

Lemma api_key_invalid_precheck (api_key : string) :
  api_key_invalid (Some api_key) = Return (negb (precheck api_key)).
Proof.
  unfold api_key_invalid, precheck. f_equal.
  rewrite !negb_andb, !negb_involutive.
  f_equal. rewrite Nat.leb_antisym. now rewrite negb_involutive.
Qed.

Lemma new_events_app (s s' : state) (new : list event) :
  log s' = (new ++ log s)%list -> new_events s s' = new.
Proof.
  intros H. unfold new_events. rewrite H, length_app.
  replace (List.length new + List.length (log s) - List.length (log s))
    with (List.length new) by lia.
  rewrite firstn_app, Nat.sub_diag, firstn_all. simpl. apply app_nil_r.
Qed.

Lemma generate_response_invalid (w : world) (s : state) (api_key : string)
    (query context : string) :
  OPENAI_API_KEY w = Some api_key ->
  rag_USE_FALLBACK_MODE s = false ->
  precheck api_key = false ->
  Rag.generate_response query context w s
  = (Return (Rag.fallback_text query context), set_rag_fallback s).
Proof.
  intros Hk Hs Hp.
  unfold Rag.generate_response, bind, Rag.get_fallback, config_api_key, lift.
  rewrite Hs, Hk, api_key_invalid_precheck, Hp. reflexivity.
Qed.

Lemma generate_response_valid (w : world) (s : state) (api_key : string)
    (query context : string) :
  OPENAI_API_KEY w = Some api_key ->
  rag_USE_FALLBACK_MODE s = false ->
  precheck api_key = true ->
  exists later,
    new_events s (snd (Rag.generate_response query context w s))
    = (later ++ [EvChat "gpt-4-1106-preview"
                   (Rag.system_prompt 20 context) query])%list.
Proof.
  intros Hk Hs Hp.
  unfold Rag.generate_response, bind, Rag.get_fallback, config_api_key, lift.
  rewrite Hs, Hk, api_key_invalid_precheck, Hp. cbn [negb].
  unfold try_except, Rag.chat, perform.
  destruct (chat_completion w (log s) _ _ _) as [text|e].
  - exists []. now apply new_events_app.
  - cbn [log].
    match goal with
    | |- context [chat_completion w ?h ?m ?p ?q] =>
        destruct (chat_completion w h m p q) as [text|e']
    end.
    + eexists [_]. now apply new_events_app.
    + eexists [_]. now apply new_events_app.
Qed.

Lemma get_species_from_image_invalid (w : world) (s : state)
    (api_key image_path : string) :
  OPENAI_API_KEY w = Some api_key ->
  ai_USE_FALLBACK_MODE s = false ->
  precheck api_key = false ->
  Ai.get_species_from_image image_path w s
  = (Return (Ai.generate_fallback_identification image_path),
     set_ai_fallback s).
Proof.
  intros Hk Hs Hp.
  unfold Ai.get_species_from_image, bind, Ai.get_fallback, config_api_key, lift.
  rewrite Hs, Hk, api_key_invalid_precheck, Hp. reflexivity.
Qed.

Lemma get_species_from_image_valid (w : world) (s : state)
    (api_key image_path : string) :
  OPENAI_API_KEY w = Some api_key ->
  ai_USE_FALLBACK_MODE s = false ->
  precheck api_key = true ->
  new_events s (snd (Ai.get_species_from_image image_path w s))
  = match read_image_base64 w (log s) image_path with
    | Return base64_image =>
        [EvPost api_key base64_image; EvReadImage image_path]
    | Raise _ => [EvReadImage image_path]
    end.
Proof.
  intros Hk Hs Hp.
  unfold Ai.get_species_from_image, bind, Ai.get_fallback, config_api_key, lift.
  rewrite Hs, Hk, api_key_invalid_precheck, Hp. cbn [negb get].
  unfold try_except, perform.
  destruct (read_image_base64 w (log s) image_path) as [b64|e].
  - cbn [log].
    destruct (post_json w _ api_key b64) as [payload|e].
    + destruct (json_in "choices" payload) as [[|]|e].
      * destruct (Ai.content_of payload); now apply new_events_app.
      * now apply new_events_app.
      * now apply new_events_app.
    + now apply new_events_app.
  - now apply new_events_app.
Qed.

(** C2, as the spec states the precheck (non-empty, not the literal
    "None", length at least 20): a credential of 26 characters that
    contains "None" passes it, yet neither operation performs any effect,
    so no remote call is attempted. *)
Lemma precheck_as_specified_counterexample :
  precheck_as_specified "sk-None-0123456789abcdefgh" = true
  /\ OPENAI_API_KEY none_inside_world = Some "sk-None-0123456789abcdefgh"
  /\ new_events fresh_state
       (snd (Rag.generate_response "Which birds?" lake_context
               none_inside_world fresh_state)) = []
  /\ new_events fresh_state
       (snd (Ai.get_species_from_image "uuid123_leopard.jpg"
               none_inside_world fresh_state)) = [].
Proof.
  repeat split; vm_compute; reflexivity.
Qed.

(** C2 (amended): with the flag not set, [generate_response] attempts a
    remote call if and only if the credential string passes the precheck
    of the code: it does not contain "None", is not empty and has at least
    20 characters; [get_species_from_image] then reads the image and, if
    the read succeeds, attempts its remote call; a credential that fails
    the precheck makes both operations return the deterministic result at
    once, with the flag set and no effect performed. *)
Theorem credential_precheck :
  forall (w : world) (s : state) (api_key : string),
    OPENAI_API_KEY w = Some api_key ->
    (forall query context,
       rag_USE_FALLBACK_MODE s = false ->
       existsb is_remote_call
         (new_events s (snd (Rag.generate_response query context w s)))
       = precheck api_key
       /\ (precheck api_key = false ->
           Rag.generate_response query context w s
           = (Return (Rag.fallback_text query context), set_rag_fallback s)))
    /\ (forall image_path,
          ai_USE_FALLBACK_MODE s = false ->
          existsb is_remote_call
            (new_events s (snd (Ai.get_species_from_image image_path w s)))
          = precheck api_key
            && negb (raises (read_image_base64 w (log s) image_path))
          /\ (precheck api_key = true ->
              In (EvReadImage image_path)
                 (new_events s (snd (Ai.get_species_from_image image_path w s))))
          /\ (precheck api_key = false ->
              Ai.get_species_from_image image_path w s
              = (Return (Ai.generate_fallback_identification image_path),
                 set_ai_fallback s))).
Proof.
  intros w s api_key Hk. split.
  - intros query context Hs. split.
    + destruct (precheck api_key) eqn:Hp.
      * destruct (generate_response_valid w s api_key query context Hk Hs Hp)
          as [later ->].
        rewrite existsb_app. simpl. apply orb_true_r.
      * rewrite (generate_response_invalid w s api_key _ _ Hk Hs Hp).
        now rewrite (new_events_app s _ []).
    + now apply generate_response_invalid.
  - intros image_path Hs. split; [|split].
    + destruct (precheck api_key) eqn:Hp.
      * rewrite (get_species_from_image_valid w s api_key _ Hk Hs Hp).
        now destruct (read_image_base64 w (log s) image_path).
      * rewrite (get_species_from_image_invalid w s api_key _ Hk Hs Hp).
        now rewrite (new_events_app s _ []).
    + intros Hp.
      rewrite (get_species_from_image_valid w s api_key _ Hk Hs Hp).
      destruct (read_image_base64 w (log s) image_path); simpl; auto.
    + now apply get_species_from_image_invalid.
Qed.

(** The precheck at a credential that passes it and at one that does
    not. *)
Lemma credential_precheck_witness :
  existsb is_remote_call
    (new_events fresh_state
       (snd (Rag.generate_response "Which birds?" lake_context
               valid_key_world fresh_state)))
  = precheck "sk-0123456789abcdefghijklmn"
  /\ Ai.get_species_from_image "uuid123_leopard.jpg" none_inside_world
       fresh_state
     = (Return (Ai.generate_fallback_identification "uuid123_leopard.jpg"),
        set_ai_fallback fresh_state).
Proof.
  split.
  - apply (proj1 (credential_precheck valid_key_world fresh_state
                    "sk-0123456789abcdefghijklmn" eq_refl)).
    reflexivity.
  - apply (proj2 (credential_precheck none_inside_world fresh_state
                    "sk-None-0123456789abcdefgh" eq_refl)).
    + reflexivity.
    + vm_compute. reflexivity.
Defined.

(* ================================================================= *)
(** ** What reaches the caller *)

Lemma process_query_returns (w : world) (s : state) (query : string) :
  raises (fst (Rag.process_query query w s)) = false.
Proof.
  unfold Rag.process_query, try_except.
  match goal with
  | |- context [match ?m w s with _ => _ end] => destruct (m w s) as [[r|e] s']
  end; reflexivity.
Qed.

Lemma get_species_from_image_with_key (w : world) (s : state)
    (image_path api_key : string) :
  OPENAI_API_KEY w = Some api_key ->
  exists r,
    fst (Ai.get_species_from_image image_path w s) = Return r
    /\ success r = true.
Proof.
  intros Hk.
  assert (F := proj1 (fallback_identification_noted image_path)).
  unfold Ai.get_species_from_image, bind, Ai.get_fallback, config_api_key, lift.
  destruct (ai_USE_FALLBACK_MODE s); [eexists; split; [reflexivity | exact F]|].
  rewrite Hk, api_key_invalid_precheck.
  destruct (negb (precheck api_key));
    [eexists; split; [reflexivity | exact F]|].
  unfold try_except, perform.
  destruct (read_image_base64 w (log s) image_path) as [b64|e];
    [|eexists; split; [reflexivity | exact F]].
  destruct (post_json w _ _ b64) as [payload|e];
    [|eexists; split; [reflexivity | exact F]].
  destruct (json_in "choices" payload) as [[|]|e];
    try (eexists; split; [reflexivity | exact F]).
  destruct (Ai.content_of payload) as [text|e];
    [eexists; split; reflexivity | eexists; split; [reflexivity | exact F]].
Qed.

Lemma get_species_from_image_without_key (w : world) (s : state)
    (image_path : string) :
  OPENAI_API_KEY w = None ->
  ai_USE_FALLBACK_MODE s = false ->
  Ai.get_species_from_image image_path w s = (Raise TypeError, s).
Proof.
  intros Hk Hs.
  unfold Ai.get_species_from_image, bind, Ai.get_fallback, config_api_key, lift.
  now rewrite Hs, Hk.
Qed.

Lemma collect_observations_flag (w : world) (key_terms : list string)
    (acc : list observation) (s : state) :
  rag_USE_FALLBACK_MODE (snd (Rag.collect_observations key_terms acc w s))
  = rag_USE_FALLBACK_MODE s.
Proof.
  revert acc s. induction key_terms as [|term rest IH]; intros acc s.
  - reflexivity.
  - cbn [Rag.collect_observations]. unfold bind, perform.
    destruct (Observation_find_by_species w (log s) term); [|reflexivity].
    cbn [log].
    destruct (Observation_find_by_location w _ term); [|reflexivity].
    now rewrite IH.
Qed.

Lemma process_query_without_key (w : world) (s : state) (query : string) :
  OPENAI_API_KEY w = None ->
  rag_USE_FALLBACK_MODE s = false ->
  fst (Rag.process_query query w s) = Return Rag.error_result
  /\ rag_USE_FALLBACK_MODE (snd (Rag.process_query query w s)) = false.
Proof.
  intros Hk Hs.
  unfold Rag.process_query, try_except, bind, perform.
  destruct (KnowledgeDocument_search w (log s) query) as [docs|e];
    [|split; [reflexivity | exact Hs]].
  match goal with
  | |- context [Rag.collect_observations ?t ?a w ?s0] =>
      assert (C := collect_observations_flag w t a s0);
      destruct (Rag.collect_observations t a w s0) as [[obs|e] s1]
  end; simpl in C; [|split; [reflexivity | simpl; congruence]].
  unfold lift.
  destruct (Rag.build_context docs obs) as [context|e];
    [|split; [reflexivity | simpl; congruence]].
  unfold Rag.generate_response, bind, Rag.get_fallback, config_api_key, lift.
  rewrite C, Hs, Hk. cbn. split; [reflexivity | simpl; congruence].
Qed.

(** C3: what the code does where the spec promises that no exception
    reaches the caller.  [process_query] indeed always returns a result;
    [get_species_from_image] always returns a result with [success] true
    when the credential is a string; but with the credential absent
    ([None]) and the flag not yet set, the precheck of
    [get_species_from_image] itself raises [TypeError], outside any
    handler, and the state is left as it was; [process_query] in that
    situation returns its generic error result and does not set the
    flag. *)
Theorem absent_credential_reaches_caller :
  (forall w s query, raises (fst (Rag.process_query query w s)) = false)
  /\ (forall w s image_path api_key,
        OPENAI_API_KEY w = Some api_key ->
        exists r,
          fst (Ai.get_species_from_image image_path w s) = Return r
          /\ success r = true)
  /\ (forall w s image_path,
        OPENAI_API_KEY w = None ->
        ai_USE_FALLBACK_MODE s = false ->
        Ai.get_species_from_image image_path w s = (Raise TypeError, s))
  /\ (forall w s query,
        OPENAI_API_KEY w = None ->
        rag_USE_FALLBACK_MODE s = false ->
        fst (Rag.process_query query w s) = Return Rag.error_result
        /\ rag_USE_FALLBACK_MODE (snd (Rag.process_query query w s)) = false)
  /\ Ai.get_species_from_image "uuid123_leopard.jpg"
       (world_with_key None) fresh_state
     = (Raise TypeError, fresh_state).
Proof.
  split; [exact process_query_returns|].
  split; [exact get_species_from_image_with_key|].
  split; [exact get_species_from_image_without_key|].
  split; [exact process_query_without_key|].
  reflexivity.
Qed.

(** The absent credential in a world whose collaborators and remote
    services would all answer. *)
Lemma absent_credential_reaches_caller_witness :
  Ai.get_species_from_image "uuid123_leopard.jpg"
    (world_with_key None) fresh_state
  = (Raise TypeError, fresh_state)
  /\ fst (Rag.process_query "Which birds?" (world_with_key None) fresh_state)
     = Return Rag.error_result
  /\ exists r,
       fst (Ai.get_species_from_image "uuid123_leopard.jpg"
              valid_key_world fresh_state) = Return r
       /\ success r = true.
Proof.
  destruct absent_credential_reaches_caller as (_ & Hkey & Hnone & Hquery & _).
  split; [|split].
  - apply Hnone; reflexivity.
  - apply (Hquery (world_with_key None) fresh_state); reflexivity.
  - apply (Hkey valid_key_world fresh_state _ "sk-0123456789abcdefghijklmn").
    reflexivity.
Defined.

(* ================================================================= *)
(** ** Parsing the response of the vision model *)

Lemma extract_species_present (result_text : string) :
  contains "identified as" (lower result_text) = true ->
  Ai.extract_species_from_result result_text
  = Some {| name := name_extracted result_text;
            confidence := Ai.get_confidence_from_text result_text |}.
Proof.
  intros H. unfold Ai.extract_species_from_result, name_extracted.
  rewrite H, split_second by (assumption || discriminate).
  now rewrite split_first by discriminate.
Qed.

Lemma extract_species_absent (result_text : string) :
  contains "identified as" (lower result_text) = false ->
  Ai.extract_species_from_result result_text = None.
Proof.
  intros H. unfold Ai.extract_species_from_result. now rewrite H.
Qed.

Lemma get_species_from_image_remote (w : world) (s : state)
    (image_path api_key base64_image text : string) (response_data : json) :
  ai_USE_FALLBACK_MODE s = false ->
  OPENAI_API_KEY w = Some api_key ->
  precheck api_key = true ->
  read_image_base64 w (log s) image_path = Return base64_image ->
  post_json w (EvReadImage image_path :: log s) api_key base64_image
  = Return response_data ->
  json_in "choices" response_data = Return true ->
  Ai.content_of response_data = Return text ->
  fst (Ai.get_species_from_image image_path w s)
  = Return {| success := true;
              result := text;
              species := Ai.extract_species_from_result text |}.
Proof.
  intros Hs Hk Hp Hread Hpost Hin Hcontent.
  unfold Ai.get_species_from_image, bind, Ai.get_fallback, config_api_key, lift.
  rewrite Hs, Hk, api_key_invalid_precheck, Hp. cbn [negb get].
  unfold try_except, perform. rewrite Hread. cbn [log].
  rewrite Hpost, Hin, Hcontent. reflexivity.
Qed.

(** C8, as the spec states the species name (the text following
    "identified as" up to the next period): on a response that says
    "identified as" a second time before its first period, the code stops
    at the second occurrence. *)
Lemma name_as_specified_counterexample :
  contains "identified as" (lower twice_identified) = true
  /\ option_map name (Ai.extract_species_from_result twice_identified)
     = Some "a kite"
  /\ name_as_specified twice_identified = "a kite identified as a hawk"
  /\ option_map name (Ai.extract_species_from_result twice_identified)
     <> Some (name_as_specified twice_identified).
Proof.
  repeat split; try (vm_compute; reflexivity).
  vm_compute. discriminate.
Qed.

(** C8 (amended): the confidence is 0.9 if the lowercased text contains
    "high confidence", else 0.7 for "medium confidence", else 0.5 for
    "low confidence", else 0.6; [extract_species_from_result] returns a
    record exactly when the lowercased text contains "identified as", and
    its name is the lowercased text between the first "identified as" and
    the next "identified as" (or the end of the text), trimmed, cut at
    its first period and trimmed, with that confidence; otherwise it
    returns nothing, and the result of the remote path still has
    [success] true. *)
Theorem extract_species_from_result_spec :
  (forall text,
     Ai.get_confidence_from_text text
     = if contains "high confidence" (lower text) then 9 # 10
       else if contains "medium confidence" (lower text) then 7 # 10
       else if contains "low confidence" (lower text) then 5 # 10
       else 6 # 10)
  /\ (forall text,
        contains "identified as" (lower text) = true ->
        Ai.extract_species_from_result text
        = Some {| name := name_extracted text;
                  confidence := Ai.get_confidence_from_text text |})
  /\ (forall text,
        contains "identified as" (lower text) = false ->
        Ai.extract_species_from_result text = None)
  /\ (forall w s image_path api_key base64_image text response_data,
        ai_USE_FALLBACK_MODE s = false ->
        OPENAI_API_KEY w = Some api_key ->
        precheck api_key = true ->
        read_image_base64 w (log s) image_path = Return base64_image ->
        post_json w (EvReadImage image_path :: log s) api_key base64_image
        = Return response_data ->
        json_in "choices" response_data = Return true ->
        Ai.content_of response_data = Return text ->
        fst (Ai.get_species_from_image image_path w s)
        = Return {| success := true;
                    result := text;
                    species := Ai.extract_species_from_result text |})
  /\ Ai.extract_species_from_result "Identified as Red Fox. High confidence."
     = Some {| name := "red fox"; confidence := 9 # 10 |}
  /\ Ai.extract_species_from_result "Probably a jackal, low confidence" = None
  /\ Ai.get_confidence_from_text "It could be a jackal" = 6 # 10.
Proof.
  split; [reflexivity|].
  split; [exact extract_species_present|].
  split; [exact extract_species_absent|].
  split; [exact get_species_from_image_remote|].
  repeat split; vm_compute; reflexivity.
Qed.

(** The parser on the response of a world that answers, and on a response
    without "identified as". *)
Lemma extract_species_from_result_witness :
  Ai.extract_species_from_result "Identified as Red Fox. High confidence."
  = Some {| name := name_extracted "Identified as Red Fox. High confidence.";
            confidence := 9 # 10 |}
  /\ Ai.extract_species_from_result "Probably a jackal, low confidence" = None
  /\ fst (Ai.get_species_from_image "uuid123_leopard.jpg" valid_key_world
            fresh_state)
     = Return {| success := true;
                 result := "Identified as Red Fox. High confidence.";
                 species :=
                   Ai.extract_species_from_result
                     "Identified as Red Fox. High confidence." |}.
Proof.
  destruct extract_species_from_result_spec
    as (_ & Hpresent & Habsent & Hremote & _).
  split; [|split].
  - apply (Hpresent "Identified as Red Fox. High confidence.").
    vm_compute. reflexivity.
  - apply Habsent. vm_compute. reflexivity.
  - eapply (Hremote valid_key_world fresh_state "uuid123_leopard.jpg"
              "sk-0123456789abcdefghijklmn" "aGVsbG8="); reflexivity.
Defined.

(* ================================================================= *)
(** ** Re-parsing the context *)

Lemma line_of_parts (species location date : string) :
  line_of species location date
  = ("- " ++ species ++ " ") ++ "observed at"
      ++ (" " ++ location ++ " on " ++ date).
Proof.
  unfold line_of. cbn [append]. do 2 f_equal.
  rewrite append_assoc. reflexivity.
Qed.

Lemma species_part_clear (species : string) :
  contains "observed at" species = false ->
  contains "observed at" ("- " ++ species ++ " ") = false.
Proof.
  intros H. cbn [append].
  rewrite !contains_cons_other by reflexivity.
  unfold contains. rewrite find_skip; [reflexivity | exact H | straddle].
Qed.

Lemma line_find (species location date : string) :
  contains "observed at" species = false ->
  find "observed at" (line_of species location date)
  = Some (String.length ("- " ++ species ++ " ")).
Proof.
  intros H. rewrite line_of_parts.
  apply find_at; [now apply species_part_clear | straddle].
Qed.

Lemma line_contains (species location date : string) :
  contains "observed at" species = false ->
  contains "observed at" (line_of species location date) = true.
Proof.
  intros H. unfold contains. now rewrite line_find.
Qed.

Lemma line_before (species location date : string) :
  contains "observed at" species = false ->
  before "observed at" (line_of species location date)
  = "- " ++ species ++ " ".
Proof.
  intros H. assert (F := line_find species location date H).
  rewrite line_of_parts in *. now apply before_at.
Qed.

Lemma line_after (species location date : string) :
  contains "observed at" species = false ->
  after "observed at" (line_of species location date)
  = " " ++ location ++ " on " ++ date.
Proof.
  intros H. assert (F := line_find species location date H).
  rewrite line_of_parts in *. now apply after_at.
Qed.

(** The segment between the first "observed at" and the next one still
    holds the location and the delimiter. *)
Lemma segment_form (location date : string) :
  contains "observed at" location = false ->
  exists rest,
    before "observed at" (" " ++ location ++ " on " ++ date)
    = " " ++ location ++ " on " ++ rest.
Proof.
  intros H. unfold before.
  assert (F : find "observed at" (" " ++ location ++ " on " ++ date)
              = option_map (Nat.add (String.length (" " ++ location ++ " on ")))
                  (find "observed at" date)).
  { replace (" " ++ location ++ " on " ++ date)
      with ((" " ++ location) ++ " on " ++ date) by reflexivity.
    rewrite find_skip.
    - cbn [append]. rewrite !find_cons.
      replace (prefix "observed at" (String " " (String "o" (String "n" (String " " date)))))
        with false by reflexivity.
      replace (prefix "observed at" (String "o" (String "n" (String " " date))))
        with false by reflexivity.
      replace (prefix "observed at" (String "n" (String " " date)))
        with false by reflexivity.
      replace (prefix "observed at" (String " " date))
        with false by reflexivity.
      destruct (find "observed at" date) as [j|]; [|reflexivity].
      cbn [option_map String.length]. f_equal.
      rewrite length_append. simpl. lia.
    - cbn [append]. now rewrite contains_cons_other by reflexivity.
    - straddle. }
  rewrite F. destruct (find "observed at" date) as [j|]; cbn [option_map].
  - exists (take j date).
    replace (" " ++ location ++ " on " ++ date)
      with ((" " ++ location ++ " on ") ++ date).
    + rewrite take_app_add. cbn [append]. f_equal.
      now rewrite append_assoc.
    + cbn [append]. f_equal. now rewrite append_assoc.
  - now exists date.
Qed.

(** Cutting the segment at its first "on" and trimming gives what
    cutting the location itself does. *)
Lemma location_recovered (location rest : string) :
  strip (before "on" (" " ++ location ++ " on " ++ rest))
  = strip (before "on" location).
Proof.
  unfold before at 1. cbn [append]. rewrite find_cons.
  replace (prefix "on" (String " " (location ++ String " " (String "o" (String "n" (String " " rest))))))
    with false by reflexivity.
  unfold before. destruct (find "on" location) as [i|] eqn:F.
  - rewrite (find_app_l _ _ _ _ F). cbn [option_map take].
    assert (B := find_bound _ _ _ F).
    rewrite take_app_le by lia. apply strip_space_cons.
  - rewrite find_skip; [| unfold contains; now rewrite F | straddle].
    replace (find "on" (String " " (String "o" (String "n" (String " " rest)))))
      with (Some 1) by reflexivity.
    cbn [option_map take]. rewrite take_app_add. cbn [take].
    rewrite strip_space_cons. apply strip_app_space.
Qed.

Lemma species_recovered (species : string) :
  contains "- " (species ++ " ") = false ->
  strip species = species ->
  strip (replace "- " "" ("- " ++ species ++ " ")) = species.
Proof.
  intros H Hstrip. unfold replace.
  change (String.length ("- " ++ species ++ " "))
    with (S (String.length (" " ++ species ++ " "))).
  cbn [replace_max].
  rewrite (find_of_prefix "- " _ (prefix_append "- " (species ++ " "))).
  change (drop (0 + String.length "- ") ("- " ++ species ++ " "))
    with (species ++ " ").
  rewrite replace_max_absent.
  - change (strip (species ++ " ") = species). now rewrite strip_app_space.
  - unfold contains in H. now destruct (find "- " (species ++ " ")).
Qed.

(** One line of the context, written from clean fields and read back. *)
Lemma parse_rendered_line (species location date : string) :
  contains "observed at" species = false ->
  contains "- " (species ++ " ") = false ->
  strip species = species ->
  contains "observed at" location = false ->
  forall rest species_mentioned locations_mentioned,
    Rag.parse_lines (line_of species location date :: rest)
      species_mentioned locations_mentioned
    = Rag.parse_lines rest
        (species_mentioned ++ [species])
        (locations_mentioned ++ [strip (before "on" location)]).
Proof.
  intros Hs Hd Ht Hl rest sm lm.
  cbn [Rag.parse_lines].
  assert (E : startswith (line_of species location date) "- " = true)
    by apply prefix_append.
  rewrite E, (line_contains _ _ _ Hs). cbn [andb].
  rewrite split_second by (discriminate || now apply line_contains).
  rewrite !split_first by discriminate.
  rewrite (line_before _ _ _ Hs), (line_after _ _ _ Hs).
  rewrite (species_recovered _ Hd Ht).
  destruct (segment_form location date Hl) as [d' ->].
  now rewrite location_recovered.
Qed.

Lemma LF_nonempty : LF <> "".
Proof. discriminate. Qed.

Lemma contains_LF_app (a b : string) :
  contains LF (a ++ b) = contains LF a || contains LF b.
Proof. apply contains_char_app. Qed.

Lemma find_LF_at (a b : string) :
  contains LF a = false -> find LF (a ++ LF ++ b) = Some (String.length a).
Proof.
  intros H. apply find_at; [exact H|].
  intros k H1 H2. simpl in H2. lia.
Qed.

Lemma split_LF_line (a b : string) :
  contains LF a = false -> split LF (a ++ LF ++ b) = a :: split LF b.
Proof.
  intros H. rewrite (split_found LF _ _ LF_nonempty (find_LF_at a b H)).
  rewrite take_app_length, drop_add, drop_app_length.
  now rewrite (drop_app_length LF b).
Qed.

Lemma contains_take_false (sub s : string) (n : nat) :
  contains sub s = false -> contains sub (take n s) = false.
Proof.
  intros H. rewrite <- (take_drop n s) in H.
  now apply contains_app_false in H.
Qed.

Lemma contains_drop_false (sub s : string) (n : nat) :
  contains sub s = false -> contains sub (drop n s) = false.
Proof.
  intros H. rewrite <- (take_drop n s) in H.
  now apply contains_app_false in H.
Qed.

(** Lines before the observations that do not mention "observed at" add
    nothing to the two lists. *)
Lemma parse_skip_block (n : nat) :
  forall block, String.length block <= n ->
  contains "observed at" block = false ->
  forall rest species_mentioned locations_mentioned,
    Rag.parse_lines (split LF (block ++ LF ++ rest))
      species_mentioned locations_mentioned
    = Rag.parse_lines (split LF rest) species_mentioned locations_mentioned.
Proof.
  induction n as [|n IH]; intros block L H rest sm lm.
  - destruct block; [|simpl in L; lia].
    rewrite (split_LF_line "" rest eq_refl). reflexivity.
  - destruct (find LF block) as [i|] eqn:F.
    + assert (B := find_bound _ _ _ F). simpl in B.
      rewrite (split_found LF _ _ LF_nonempty (find_app_l _ _ (LF ++ rest) _ F)).
      rewrite take_app_le, drop_app_le by (simpl; lia).
      cbn [Rag.parse_lines].
      rewrite (contains_take_false _ _ i H), andb_false_r.
      apply IH.
      * rewrite length_drop. simpl. lia.
      * now apply contains_drop_false.
    + rewrite split_LF_line by (unfold contains; now rewrite F).
      cbn [Rag.parse_lines]. now rewrite H, andb_false_r.
Qed.

Lemma render_observation_line (obs : observation) :
  render_observation obs
  = line_of (species_of obs) (location_of obs) (date_of obs) ++ LF.
Proof.
  unfold render_observation, line_of, species_of, location_of, date_of.
  now rewrite !append_assoc.
Qed.

Lemma clean_fields (obs : observation) :
  clean obs = true ->
  contains LF (line_of (species_of obs) (location_of obs) (date_of obs)) = false
  /\ contains "observed at" (species_of obs) = false
  /\ contains "- " (species_of obs ++ " ") = false
  /\ strip (species_of obs) = species_of obs
  /\ contains "observed at" (location_of obs) = false.
Proof.
  unfold clean. rewrite !andb_true_iff, !negb_true_iff, String.eqb_eq.
  intros [[[[[[A B] C] D] E] F] G].
  repeat split; try assumption.
  unfold line_of. rewrite !contains_LF_app, A, B, C. reflexivity.
Qed.

Lemma parse_observation_lines (obs_list : list observation) :
  forallb clean obs_list = true ->
  forall species_mentioned locations_mentioned,
    Rag.parse_lines
      (split LF (String.concat "" (map render_observation obs_list)))
      species_mentioned locations_mentioned
    = ((species_mentioned ++ map species_of obs_list)%list,
       (locations_mentioned ++ map recovered_location obs_list)%list).
Proof.
  induction obs_list as [|obs rest IH]; intros H sm lm.
  - cbn. now rewrite !app_nil_r.
  - cbn [forallb] in H. apply andb_true_iff in H as [Hobs Hrest].
    destruct (clean_fields obs Hobs) as (Hlf & Hs & Hd & Ht & Hl).
    cbn [map]. rewrite concat_empty_cons, render_observation_line.
    rewrite append_assoc, (split_LF_line _ _ Hlf).
    rewrite (parse_rendered_line _ _ _ Hs Hd Ht Hl).
    rewrite (IH Hrest). unfold recovered_location at 2.
    now rewrite <- !app_assoc.
Qed.

Lemma parse_built_context (docs : list document)
    (observations : list observation) :
  forallb complete (firstn 3 docs) = true ->
  contains "observed at" (knowledge_block docs) = false ->
  forallb clean (firstn 5 observations) = true ->
  exists context,
    Rag.build_context docs observations = Return context
    /\ Rag.parse_context context
       = (map species_of (firstn 5 observations),
          map recovered_location (firstn 5 observations)).
Proof.
  intros Hdocs Hblock Hobs.
  rewrite (build_context_complete docs observations Hdocs).
  eexists. split; [reflexivity|].
  unfold Rag.parse_context.
  replace ("Knowledge Base Information:" ++ LF
             ++ String.concat "" (map render_document (firstn 3 docs))
             ++ LF ++ "Recent Observations:" ++ LF
             ++ String.concat "" (map render_observation (firstn 5 observations)))
    with (knowledge_block docs ++ LF
            ++ String.concat "" (map render_observation (firstn 5 observations))).
  - rewrite (parse_skip_block _ _ (Nat.le_refl _) Hblock).
    now rewrite (parse_observation_lines _ Hobs).
  - unfold knowledge_block. now rewrite !append_assoc.
Qed.

(** C10, as the spec states its proviso (a species name with neither
    "observed at" nor "- "): a name with a blank at its end and a name
    that ends with a hyphen meet it and are not recovered exactly. *)
Lemma species_as_specified_counterexample :
  forallb (fun obs => species_as_specified (species_of obs))
          padded_observations = true
  /\ Rag.build_context [] padded_observations = Return padded_context
  /\ fst (Rag.parse_context padded_context) = ["Grey Heron"; "Eagle"]
  /\ fst (Rag.parse_context padded_context)
     <> map species_of padded_observations.
Proof.
  repeat split; try (vm_compute; reflexivity).
  vm_compute. discriminate.
Qed.

(** C10 (amended): when the part of the context before the observation
    lines does not contain "observed at", and each of the first five
    observations has no line feed in its species, location and date, a
    species name without "observed at", without "- " (also when a space
    is put after it) and without blanks around it, and a location without
    "observed at", the re-parse of the context built by [build_context]
    recovers, in order, the species names of the first five observations
    exactly, and for each location the trimmed text before its first
    "on", or the trimmed location when it has no "on": "Front Lake" is
    recovered as "Fr" and the placeholder "Unknown location" as
    "Unknown locati". *)
Theorem context_reparse :
  (forall docs observations,
     forallb complete (firstn 3 docs) = true ->
     contains "observed at" (knowledge_block docs) = false ->
     forallb clean (firstn 5 observations) = true ->
     exists context,
       Rag.build_context docs observations = Return context
       /\ Rag.parse_context context
          = (map species_of (firstn 5 observations),
             map recovered_location (firstn 5 observations)))
  /\ (forall obs i,
        find "on" (location_of obs) = Some i ->
        recovered_location obs = strip (take i (location_of obs)))
  /\ (forall obs,
        contains "on" (location_of obs) = false ->
        recovered_location obs = strip (location_of obs))
  /\ Rag.build_context [] lake_observations = Return lake_observations_context
  /\ Rag.parse_context lake_observations_context
     = (["Mallard Duck"; "Red Fox"; "Barking Deer"],
        ["Fr"; "Unknown locati"; "Trail 5"])
  /\ (forall w s,
        fst (Rag.generate_fallback_response "What lives here?"
               lake_observations_context w s)
        = Return "Based on our records, these species have been observed in Islamabad: Mallard Duck, Red Fox, Barking Deer.").
Proof.
  split; [exact parse_built_context|].
  split.
  { intros obs i F. unfold recovered_location, before. now rewrite F. }
  split.
  { intros obs H. unfold recovered_location, before.
    unfold contains in H. now destruct (find "on" (location_of obs)). }
  split; [vm_compute; reflexivity|].
  split; [vm_compute; reflexivity|].
  intros w s. vm_compute. reflexivity.
Qed.

(** The re-parse of the context of three clean observations, one of them
    at "Front Lake" and one without a location. *)
Lemma context_reparse_witness :
  (exists context,
     Rag.build_context [] lake_observations = Return context
     /\ Rag.parse_context context
        = (map species_of (firstn 5 lake_observations),
           map recovered_location (firstn 5 lake_observations)))
  /\ recovered_location
       (make_observation (Some "Mallard Duck") (Some "Front Lake")
          (Some "2024-02-03"))
     = strip (take 2 "Front Lake")
  /\ recovered_location
       (make_observation (Some "Barking Deer") (Some "Trail 5")
          (Some "2024-02-05"))
     = strip "Trail 5".
Proof.
  destruct context_reparse as (Hparse & Hcut & Hwhole & _).
  split; [|split].
  - apply Hparse; vm_compute; reflexivity.
  - apply (Hcut (make_observation (Some "Mallard Duck") (Some "Front Lake")
                   (Some "2024-02-03")) 2).
    vm_compute. reflexivity.
  - apply (Hwhole (make_observation (Some "Barking Deer") (Some "Trail 5")
                     (Some "2024-02-05"))).
    vm_compute. reflexivity.
Defined.

(* ================================================================= *)
(** ** The two degradation chains, step by step *)

Lemma remote_count_app (a b : list event) :
  remote_count (a ++ b) = remote_count a + remote_count b.
Proof. unfold remote_count. now rewrite filter_app, length_app. Qed.



(** X2: a failure of the first model alone does not engage the fallback:
    when the second model answers, its text is returned, both calls are
    logged and the flag stays as it was, so that the next call tries the
    first model again. *)
Theorem generate_response_second_tier :
  forall w s api_key query context text e,
    rag_USE_FALLBACK_MODE s = false ->
    OPENAI_API_KEY w = Some api_key ->
    precheck api_key = true ->
    chat_completion w (log s) "gpt-4-1106-preview"
      (Rag.system_prompt 20 context) query = Raise e ->
    chat_completion w
      (EvChat "gpt-4-1106-preview" (Rag.system_prompt 20 context) query :: log s)
      "gpt-3.5-turbo" (Rag.system_prompt 24 context) query = Return text ->
    fst (Rag.generate_response query context w s) = Return text
    /\ rag_USE_FALLBACK_MODE (snd (Rag.generate_response query context w s))
       = false
    /\ new_events s (snd (Rag.generate_response query context w s))
       = [EvChat "gpt-3.5-turbo" (Rag.system_prompt 24 context) query;
          EvChat "gpt-4-1106-preview" (Rag.system_prompt 20 context) query]
    /\ forall query' context',
         hd_error
           (rev (new_events (snd (Rag.generate_response query context w s))
                   (snd (Rag.generate_response query' context' w
                           (snd (Rag.generate_response query context w s))))))
         = Some (EvChat "gpt-4-1106-preview"
                   (Rag.system_prompt 20 context') query').
Proof.
  intros w s api_key query context text e Hs Hk Hp C1 C2.
  assert (E : Rag.generate_response query context w s
              = (Return text,
                 {| rag_USE_FALLBACK_MODE := false;
                    ai_USE_FALLBACK_MODE := ai_USE_FALLBACK_MODE s;
                    log := EvChat "gpt-3.5-turbo"
                             (Rag.system_prompt 24 context) query
                           :: EvChat "gpt-4-1106-preview"
                                (Rag.system_prompt 20 context) query
                           :: log s |})).
  { unfold Rag.generate_response, bind, Rag.get_fallback, config_api_key, lift.
    rewrite Hs, Hk, api_key_invalid_precheck, Hp. cbn [negb].
    unfold try_except, Rag.chat, perform. rewrite C1. cbn [log].
    rewrite C2. cbn. now rewrite Hs. }
  rewrite E. cbn [fst snd rag_USE_FALLBACK_MODE].
  split; [reflexivity|]. split; [reflexivity|].
  split; [now apply new_events_app|].
  intros query' context'.
  match goal with
  | |- context [Rag.generate_response query' context' w ?s1] =>
      destruct (generate_response_valid w s1 api_key query' context' Hk
                  eq_refl Hp) as [later ->]
  end.
  rewrite rev_app_distr. reflexivity.
Qed.

(** The second tier in a world whose first model always fails. *)
Lemma generate_response_second_tier_witness :
  fst (Rag.generate_response "Which birds?" lake_context
         second_tier_world fresh_state) = Return "A cheaper answer."
  /\ rag_USE_FALLBACK_MODE
       (snd (Rag.generate_response "Which birds?" lake_context
               second_tier_world fresh_state)) = false.
Proof.
  destruct (generate_response_second_tier second_tier_world fresh_state
              "sk-0123456789abcdefghijklmn" "Which birds?" lake_context
              "A cheaper answer." RemoteError eq_refl eq_refl eq_refl
              eq_refl eq_refl) as (Ht & Hf & _).
  split; [exact Ht | exact Hf].
Defined.

(** The whole of [get_species_from_image] once the credential has passed
    the precheck. *)
Lemma get_species_from_image_attempt (w : world) (s : state)
    (api_key image_path : string) :
  ai_USE_FALLBACK_MODE s = false ->
  OPENAI_API_KEY w = Some api_key ->
  precheck api_key = true ->
  fst (Ai.get_species_from_image image_path w s)
  = Return
      (match remote_text w s api_key image_path with
       | Some text =>
           {| success := true;
              result := text;
              species := Ai.extract_species_from_result text |}
       | None => Ai.generate_fallback_identification image_path
       end)
  /\ ai_USE_FALLBACK_MODE (snd (Ai.get_species_from_image image_path w s))
     = match remote_text w s api_key image_path with
       | Some _ => false
       | None => true
       end.
Proof.
  intros Hs Hk Hp.
  unfold Ai.get_species_from_image, bind, Ai.get_fallback, config_api_key, lift.
  rewrite Hs, Hk, api_key_invalid_precheck, Hp. cbn [negb get].
  unfold try_except, perform, remote_text.
  destruct (read_image_base64 w (log s) image_path) as [b64|e];
    [|split; reflexivity].
  cbn [log].
  destruct (post_json w _ api_key b64) as [payload|e]; [|split; reflexivity].
  destruct (json_in "choices" payload) as [[|]|e]; try (split; reflexivity).
  destruct (Ai.content_of payload) as [text|e]; split; try reflexivity.
  cbn. exact Hs.
Qed.

(** X3: with a credential that is a string, [get_species_from_image] always
    returns a result, makes at most one remote call, and the flag after
    the call tells where the result came from: set, it is the filename
    identification; not set, it carries the text of a remote payload and
    the species parsed from that text. *)
Theorem get_species_from_image_flag_tells_origin :
  forall w s api_key image_path,
    OPENAI_API_KEY w = Some api_key ->
    exists r,
      fst (Ai.get_species_from_image image_path w s) = Return r
      /\ remote_count
           (new_events s (snd (Ai.get_species_from_image image_path w s))) <= 1
      /\ (ai_USE_FALLBACK_MODE (snd (Ai.get_species_from_image image_path w s))
          = true ->
          r = Ai.generate_fallback_identification image_path)
      /\ (ai_USE_FALLBACK_MODE (snd (Ai.get_species_from_image image_path w s))
          = false ->
          exists history base64_image response_data text,
            post_json w history api_key base64_image = Return response_data
            /\ Ai.content_of response_data = Return text
            /\ r = {| success := true;
                      result := text;
                      species := Ai.extract_species_from_result text |}).
Proof.
  intros w s api_key image_path Hk.
  destruct (ai_USE_FALLBACK_MODE s) eqn:Hs.
  - rewrite (get_species_from_image_in_fallback w s image_path Hs).
    eexists. cbn [fst snd]. rewrite (new_events_app s s []) by reflexivity.
    split; [reflexivity|]. split; [cbn; lia|].
    split; [reflexivity | congruence].
  - destruct (precheck api_key) eqn:Hp.
    + destruct (get_species_from_image_attempt w s api_key image_path Hs Hk Hp)
        as [Hr Hf].
      rewrite Hr, Hf,
        (get_species_from_image_valid w s api_key image_path Hk Hs Hp).
      eexists. split; [reflexivity|].
      split; [destruct (read_image_base64 w (log s) image_path); cbn; lia|].
      unfold remote_text.
      destruct (read_image_base64 w (log s) image_path) as [b64|e];
        [|split; [reflexivity | discriminate]].
      destruct (post_json w _ api_key b64) as [payload|e] eqn:P;
        [|split; [reflexivity | discriminate]].
      destruct (json_in "choices" payload) as [[|]|e];
        try (split; [reflexivity | discriminate]).
      destruct (Ai.content_of payload) as [text|e] eqn:C;
        [|split; [reflexivity | discriminate]].
      split; [discriminate|]. intros _.
      exists (EvReadImage image_path :: log s), b64, payload, text.
      repeat split; assumption.
    + rewrite (get_species_from_image_invalid w s api_key _ Hk Hs Hp).
      eexists. cbn [fst snd]. rewrite (new_events_app s _ []) by reflexivity.
      split; [reflexivity|]. split; [cbn; lia|].
      split; [reflexivity | discriminate].
Qed.

(** The image chain in a world whose remote service answers. *)
Lemma get_species_from_image_flag_tells_origin_witness :
  exists r,
    fst (Ai.get_species_from_image "uuid123_leopard.jpg" valid_key_world
           fresh_state) = Return r
    /\ remote_count
         (new_events fresh_state
            (snd (Ai.get_species_from_image "uuid123_leopard.jpg"
                    valid_key_world fresh_state))) <= 1.
Proof.
  destruct (get_species_from_image_flag_tells_origin valid_key_world
              fresh_state "sk-0123456789abcdefghijklmn"
              "uuid123_leopard.jpg" eq_refl) as (r & Hr & Hc & _).
  exists r. split; [exact Hr | exact Hc].
Defined.

(** X4: every way the remote identification can fail engages the fallback:
    an image that cannot be read, a call that raises, a payload without
    "choices" (or one that cannot be searched for it), and a payload whose
    first choice carries no text.  In each case the result is the
    filename identification and the flag is set. *)
Theorem get_species_from_image_failures :
  forall w s api_key image_path,
    ai_USE_FALLBACK_MODE s = false ->
    OPENAI_API_KEY w = Some api_key ->
    precheck api_key = true ->
    (raises (read_image_base64 w (log s) image_path) = true
     \/ (exists base64_image,
           read_image_base64 w (log s) image_path = Return base64_image
           /\ (raises (post_json w (EvReadImage image_path :: log s)
                         api_key base64_image) = true
               \/ exists response_data,
                    post_json w (EvReadImage image_path :: log s)
                      api_key base64_image = Return response_data
                    /\ (json_in "choices" response_data <> Return true
                        \/ raises (Ai.content_of response_data) = true)))) ->
    fst (Ai.get_species_from_image image_path w s)
    = Return (Ai.generate_fallback_identification image_path)
    /\ ai_USE_FALLBACK_MODE (snd (Ai.get_species_from_image image_path w s))
       = true.
Proof.
  intros w s api_key image_path Hs Hk Hp H.
  destruct (get_species_from_image_attempt w s api_key image_path Hs Hk Hp)
    as [Hr Hf].
  assert (N : remote_text w s api_key image_path = None).
  { unfold remote_text.
    destruct H as [H|(b64 & R & [H|(payload & P & [H|H])])].
    - destruct (read_image_base64 w (log s) image_path);
        [discriminate | reflexivity].
    - rewrite R. destruct (post_json w _ api_key b64);
        [discriminate | reflexivity].
    - rewrite R, P. destruct (json_in "choices" payload) as [[|]|e];
        [congruence | reflexivity | reflexivity].
    - rewrite R, P. destruct (json_in "choices" payload) as [[|]|e];
        try reflexivity.
      destruct (Ai.content_of payload); [discriminate | reflexivity]. }
  rewrite Hr, Hf, N. split; reflexivity.
Qed.

(** An unreadable image, and a payload whose content is [null]. *)
Lemma get_species_from_image_failures_witness :
  (fst (Ai.get_species_from_image "uuid123_leopard.jpg" unreadable_world
          fresh_state)
   = Return (Ai.generate_fallback_identification "uuid123_leopard.jpg")
   /\ ai_USE_FALLBACK_MODE
        (snd (Ai.get_species_from_image "uuid123_leopard.jpg"
                unreadable_world fresh_state)) = true)
  /\ (fst (Ai.get_species_from_image "uuid123_leopard.jpg"
             null_content_world fresh_state)
      = Return (Ai.generate_fallback_identification "uuid123_leopard.jpg")
      /\ ai_USE_FALLBACK_MODE
           (snd (Ai.get_species_from_image "uuid123_leopard.jpg"
                   null_content_world fresh_state)) = true).
Proof.
  split.
  - apply (get_species_from_image_failures unreadable_world fresh_state
             "sk-0123456789abcdefghijklmn"); try reflexivity.
    left. reflexivity.
  - apply (get_species_from_image_failures null_content_world fresh_state
             "sk-0123456789abcdefghijklmn"); try reflexivity.
    right. exists "aGVsbG8=". split; [reflexivity|]. right.
    eexists. split; [reflexivity|]. right. reflexivity.
Defined.

(* ================================================================= *)
(** ** The result of [process_query] *)

Lemma features_of_length (obs : observation) :
  List.length (features_of obs) <= 1.
Proof.
  unfold features_of.
  destruct (obs_coordinates obs) as [c|]; [|simpl; lia].
  destruct (truthy c); [|simpl; lia].
  destruct (py_str _); simpl; lia.
Qed.

Lemma format_observations_length (observations : list observation) :
  List.length (Rag.format_observations observations)
  <= List.length observations.
Proof.
  rewrite format_observations_flat_map.
  induction observations as [|obs rest IH]; [simpl; lia|].
  cbn [flat_map]. rewrite length_app. cbn [List.length].
  assert (L := features_of_length obs). lia.
Qed.

Lemma titles_spec (docs : list document) :
  Rag.titles docs
  = if forallb titled docs then Return (map title_of docs) else Raise KeyError.
Proof.
  induction docs as [|doc rest IH]; [reflexivity|].
  cbn [Rag.titles forallb map]. unfold titled at 1, title_of at 1.
  destruct (doc_title doc) as [t|]; cbn [getitem get andb]; [|reflexivity].
  rewrite IH. now destruct (forallb titled rest).
Qed.

(** The shape of every result of [process_query]: either the error
    result, or a result assembled from documents and observations that
    were retrieved. *)
Lemma process_query_shape (w : world) (s : state) (query : string) :
  fst (Rag.process_query query w s) = Return Rag.error_result
  \/ exists docs observation_results context s1,
       KnowledgeDocument_search w (log s) query = Return docs
       /\ Rag.build_context docs observation_results = Return context
       /\ forallb titled docs = true
       /\ fst (Rag.process_query query w s)
          = Return
              {| response :=
                   match fst (Rag.generate_response query context w s1) with
                   | Return text => text
                   | Raise _ => ""
                   end;
                 knowledge_sources := map title_of docs;
                 observation_count := List.length observation_results;
                 observations := Rag.format_observations observation_results |}
       /\ raises (fst (Rag.generate_response query context w s1)) = false
       /\ fst (Rag.collect_observations (Rag.extract_key_terms query) [] w
                 {| rag_USE_FALLBACK_MODE := rag_USE_FALLBACK_MODE s;
                    ai_USE_FALLBACK_MODE := ai_USE_FALLBACK_MODE s;
                    log := EvSearch query :: log s |})
          = Return observation_results.
Proof.
  unfold Rag.process_query, try_except, bind, perform, lift.
  destruct (KnowledgeDocument_search w (log s) query) as [docs|e];
    [|left; reflexivity].
  destruct (Rag.collect_observations _ [] w _) as [[obs|e] s1] eqn:C;
    [|left; reflexivity].
  destruct (Rag.build_context docs obs) as [context|e] eqn:B;
    [|left; reflexivity].
  destruct (Rag.generate_response query context w s1) as [[text|e] s2] eqn:G;
    [|left; reflexivity].
  rewrite titles_spec.
  destruct (forallb titled docs) eqn:T; [|left; reflexivity].
  right. exists docs, obs, context, s1. rewrite G. cbn [fst].
  repeat split; auto.
Qed.

(** X5: whatever the world answers, the features returned by [process_query]
    are never more than the observations it counts. *)
Theorem process_query_count_bounds_features :
  forall w s query r,
    fst (Rag.process_query query w s) = Return r ->
    List.length (observations r) <= observation_count r.
Proof.
  intros w s query r H.
  destruct (process_query_shape w s query)
    as [E|(docs & obs & context & s1 & _ & _ & _ & E & _)];
    rewrite E in H; inversion H; subst; cbn.
  - lia.
  - apply format_observations_length.
Qed.

(** The bound on a query whose lookups find the sighting with coordinates
    and the one without. *)
Lemma process_query_count_bounds_features_witness :
  fst (Rag.process_query "birds"
         (answering_world [] [sighting; sighting_without_coordinates])
         fresh_state)
  = Return
      {| response := "An answer.";
         knowledge_sources := [];
         observation_count := 4;
         observations :=
           Rag.format_observations
             [sighting; sighting_without_coordinates;
              sighting; sighting_without_coordinates] |}
  /\ List.length
       (Rag.format_observations
          [sighting; sighting_without_coordinates;
           sighting; sighting_without_coordinates]) <= 4.
Proof.
  assert (E : fst (Rag.process_query "birds"
                     (answering_world [] [sighting; sighting_without_coordinates])
                     fresh_state)
              = Return
                  {| response := "An answer.";
                     knowledge_sources := [];
                     observation_count := 4;
                     observations :=
                       Rag.format_observations
                         [sighting; sighting_without_coordinates;
                          sighting; sighting_without_coordinates] |})
    by (vm_compute; reflexivity).
  split; [exact E|].
  exact (process_query_count_bounds_features _ _ _ _ E).
Defined.

(** X6: one retrieved document without a title is enough for the whole query
    to end in the error result, even when it is not among the three that
    go into the context. *)
Theorem process_query_untitled_document :
  forall w s query docs,
    KnowledgeDocument_search w (log s) query = Return docs ->
    forallb titled docs = false ->
    fst (Rag.process_query query w s) = Return Rag.error_result.
Proof.
  intros w s query docs Hd Ht.
  destruct (process_query_shape w s query)
    as [E|(docs' & obs & context & s1 & Hd' & _ & Ht' & _)]; [exact E|].
  rewrite Hd in Hd'. inversion Hd'; subst. congruence.
Qed.

(** Four documents, the fourth without a title. *)
Lemma process_query_untitled_document_witness :
  Rag.build_context untitled_last [] <> Raise KeyError
  /\ fst (Rag.process_query "birds" (answering_world untitled_last [])
            fresh_state)
     = Return Rag.error_result.
Proof.
  split; [vm_compute; discriminate|].
  apply (process_query_untitled_document _ _ _ untitled_last); reflexivity.
Defined.





(** X8: a query without any word of the vocabulary is answered without any
    observation lookup: whatever the world answers, the result counts no
    observation and has no feature. *)
Theorem process_query_without_key_terms :
  forall w s query r,
    Rag.extract_key_terms query = [] ->
    fst (Rag.process_query query w s) = Return r ->
    observation_count r = 0
    /\ observations r = []
    /\ forallb (fun e => match e with
                         | EvFindBySpecies _ | EvFindByLocation _ => false
                         | _ => true
                         end)
         (new_events s (snd (Rag.process_query query w s))) = true.
Proof.
  intros w s query r Ht H.
  split; [|split].
  - destruct (process_query_shape w s query)
      as [E|(docs & obs & context & s1 & _ & _ & _ & E & _ & C)];
      rewrite E in H; inversion H; subst; [reflexivity|].
    rewrite Ht in C. cbn in C. inversion C. reflexivity.
  - destruct (process_query_shape w s query)
      as [E|(docs & obs & context & s1 & _ & _ & _ & E & _ & C)];
      rewrite E in H; inversion H; subst; [reflexivity|].
    rewrite Ht in C. cbn in C. inversion C. reflexivity.
  - clear H. unfold Rag.process_query, try_except, bind, perform, lift.
    rewrite Ht. cbn [Rag.collect_observations ret].
    destruct (KnowledgeDocument_search w (log s) query) as [docs|e];
      [|cbn [snd]; now rewrite (new_events_app s _ [EvSearch query])].
    destruct (Rag.build_context docs []) as [context|e];
      [|cbn [snd]; now rewrite (new_events_app s _ [EvSearch query])].
    match goal with
    | |- context [Rag.generate_response query context w ?s0] =>
        pose (s1 := s0);
        assert (G : exists new,
                   log (snd (Rag.generate_response query context w s1))
                   = (new ++ log s1)%list
                   /\ forallb is_remote_call new = true)
    end.
    { unfold Rag.generate_response, bind, Rag.get_fallback, config_api_key, lift.
      destruct (rag_USE_FALLBACK_MODE s1); [exists []; split; reflexivity|].
      destruct (api_key_invalid (OPENAI_API_KEY w)) as [[|]|e];
        try (exists []; split; reflexivity).
      unfold try_except, Rag.chat, perform.
      destruct (chat_completion w (log s1) _ _ _);
        [eexists [_]; split; reflexivity|].
      cbn [log].
      match goal with
      | |- context [chat_completion w ?h ?m ?p ?q] =>
          destruct (chat_completion w h m p q)
      end; eexists [_; _]; split; reflexivity. }
    destruct G as (new & L & R). fold s1.
    destruct (Rag.generate_response query context w s1) as [[text|e] s2].
    + cbn [snd] in L. destruct (Rag.titles docs); cbn [snd ret];
        rewrite (new_events_app s _ (new ++ [EvSearch query]))
          by (rewrite L; unfold s1; cbn [log]; now rewrite <- app_assoc);
        rewrite forallb_app; cbn; rewrite andb_true_r;
        clear -R; induction new as [|[] new IH]; cbn in *;
          try discriminate; auto.
    + cbn [snd] in L. cbn [snd ret].
      rewrite (new_events_app s _ (new ++ [EvSearch query]))
        by (rewrite L; unfold s1; cbn [log]; now rewrite <- app_assoc).
      rewrite forallb_app; cbn; rewrite andb_true_r.
      clear -R; induction new as [|[] new IH]; cbn in *;
        try discriminate; auto.
Qed.

(** A greeting holds no word of the vocabulary. *)
Lemma process_query_without_key_terms_witness :
  observation_count
    {| response := "An answer.";
       knowledge_sources := [];
       observation_count := 0;
       observations := [] |} = 0
  /\ fst (Rag.process_query "Hello there"
            (answering_world [] [sighting]) fresh_state)
     = Return {| response := "An answer.";
                 knowledge_sources := [];
                 observation_count := 0;
                 observations := [] |}.
Proof.
  assert (E : fst (Rag.process_query "Hello there"
                     (answering_world [] [sighting]) fresh_state)
              = Return {| response := "An answer.";
                          knowledge_sources := [];
                          observation_count := 0;
                          observations := [] |})
    by (vm_compute; reflexivity).
  split; [|exact E].
  exact (proj1 (process_query_without_key_terms _ _ "Hello there" _
                  eq_refl E)).
Defined.

(* ================================================================= *)
(** ** Which effects each service performs, and which flag it touches *)

Lemma preserves_ret {A B} (f : state -> B) (a : A) : preserves f (ret a).
Proof. intros w s. reflexivity. Qed.

Lemma preserves_lift {A B} (f : state -> B) (r : pyresult A) :
  preserves f (lift r).
Proof. intros w s. reflexivity. Qed.

Lemma preserves_config {B} (f : state -> B) : preserves f config_api_key.
Proof. intros w s. reflexivity. Qed.

Lemma preserves_bind {A B C} (f : state -> C) (m : M A) (k : A -> M B) :
  preserves f m -> (forall a, preserves f (k a)) -> preserves f (bind m k).
Proof.
  intros Hm Hk w s. unfold bind. specialize (Hm w s).
  destruct (m w s) as [[a|e] s']; cbn [snd] in *; [|exact Hm].
  now rewrite Hk.
Qed.

Lemma preserves_try {A C} (f : state -> C) (m : M A) (handler : exn -> M A) :
  preserves f m -> (forall e, preserves f (handler e)) ->
  preserves f (try_except m handler).
Proof.
  intros Hm Hh w s. unfold try_except. specialize (Hm w s).
  destruct (m w s) as [[a|e] s']; cbn [snd] in *; [exact Hm|].
  now rewrite Hh.
Qed.

Lemma preserves_if {A C} (f : state -> C) (b : bool) (m1 m2 : M A) :
  preserves f m1 -> preserves f m2 -> preserves f (if b then m1 else m2).
Proof. now destruct b. Qed.

Lemma preserves_ai_perform {A} (e : event)
    (outcome : world -> list event -> pyresult A) :
  preserves ai_USE_FALLBACK_MODE (perform e outcome).
Proof. intros w s. reflexivity. Qed.

Lemma preserves_rag_perform {A} (e : event)
    (outcome : world -> list event -> pyresult A) :
  preserves rag_USE_FALLBACK_MODE (perform e outcome).
Proof. intros w s. reflexivity. Qed.

Lemma preserves_ai_rag_set : preserves ai_USE_FALLBACK_MODE Rag.set_fallback.
Proof. intros w s. reflexivity. Qed.

Lemma preserves_rag_ai_set : preserves rag_USE_FALLBACK_MODE Ai.set_fallback.
Proof. intros w s. reflexivity. Qed.

Lemma preserves_rag_get {B} (f : state -> B) : preserves f Rag.get_fallback.
Proof. intros w s. reflexivity. Qed.

Lemma preserves_ai_get {B} (f : state -> B) : preserves f Ai.get_fallback.
Proof. intros w s. reflexivity. Qed.

Ltac keep_component :=
  repeat first
    [ apply preserves_ret | apply preserves_lift | apply preserves_config
    | apply preserves_rag_get | apply preserves_ai_get
    | apply preserves_ai_perform | apply preserves_rag_perform
    | apply preserves_ai_rag_set | apply preserves_rag_ai_set
    | apply preserves_bind; [|intros ?]
    | apply preserves_try; [|intros ?]
    | apply preserves_if
    | assumption ].

Lemma preserves_ai_collect (key_terms : list string)
    (acc : list observation) :
  preserves ai_USE_FALLBACK_MODE (Rag.collect_observations key_terms acc).
Proof.
  revert acc. induction key_terms as [|term rest IH]; intros acc;
    cbn [Rag.collect_observations]; keep_component. apply IH.
Qed.

(** X9: the two families are independent: nothing on the query side changes
    the flag of the image side, and [get_species_from_image] never
    changes the flag of the query side; so a failure of one remote
    service never silences the other. *)
Theorem flags_are_independent :
  forall w s,
    (forall query,
       ai_USE_FALLBACK_MODE (snd (Rag.process_query query w s))
       = ai_USE_FALLBACK_MODE s)
    /\ (forall query context,
          ai_USE_FALLBACK_MODE (snd (Rag.generate_response query context w s))
          = ai_USE_FALLBACK_MODE s)
    /\ (forall query context,
          ai_USE_FALLBACK_MODE
            (snd (Rag.generate_fallback_response query context w s))
          = ai_USE_FALLBACK_MODE s)
    /\ (forall image_path,
          rag_USE_FALLBACK_MODE (snd (Ai.get_species_from_image image_path w s))
          = rag_USE_FALLBACK_MODE s).
Proof.
  intros w s.
  assert (F : forall query context,
             preserves ai_USE_FALLBACK_MODE
               (Rag.generate_fallback_response query context))
    by (intros; unfold Rag.generate_fallback_response; keep_component).
  assert (G : forall query context,
             preserves ai_USE_FALLBACK_MODE
               (Rag.generate_response query context))
    by (intros; unfold Rag.generate_response, Rag.chat; keep_component;
        apply F).
  split; [|split; [|split]].
  - intros query. revert w s.
    change (preserves ai_USE_FALLBACK_MODE (Rag.process_query query)).
    unfold Rag.process_query. keep_component;
      first [apply preserves_ai_collect | apply G].
  - intros. apply G.
  - intros. apply F.
  - intros image_path. revert w s.
    change (preserves rag_USE_FALLBACK_MODE
              (Ai.get_species_from_image image_path)).
    unfold Ai.get_species_from_image. keep_component.
Qed.

Lemma emits_weaken {A} (ok : event -> bool) (b b' : nat) (m : M A) :
  b <= b' -> emits ok b m -> emits ok b' m.
Proof.
  intros L H w s. destruct (H w s) as (new & E & O & C).
  exists new. repeat split; auto. lia.
Qed.

Lemma emits_silent {A} (ok : event -> bool) (m : M A) :
  preserves log m -> emits ok 0 m.
Proof.
  intros H w s. exists []. rewrite H. repeat split; auto.
Qed.

Lemma emits_bind {A B} (ok : event -> bool) (b1 b2 : nat)
    (m : M A) (k : A -> M B) :
  emits ok b1 m -> (forall a, emits ok b2 (k a)) ->
  emits ok (b1 + b2) (bind m k).
Proof.
  intros Hm Hk w s. unfold bind. destruct (Hm w s) as (new & E & O & C).
  destruct (m w s) as [[a|e] s']; cbn [snd] in *.
  - destruct (Hk a w s') as (new' & E' & O' & C').
    exists (new' ++ new)%list. rewrite E', E, app_assoc.
    split; [reflexivity|]. split.
    + rewrite forallb_app. now rewrite O, O'.
    + rewrite remote_count_app. lia.
  - exists new. repeat split; auto. lia.
Qed.

Lemma emits_try {A} (ok : event -> bool) (b1 b2 : nat)
    (m : M A) (handler : exn -> M A) :
  emits ok b1 m -> (forall e, emits ok b2 (handler e)) ->
  emits ok (b1 + b2) (try_except m handler).
Proof.
  intros Hm Hh w s. unfold try_except. destruct (Hm w s) as (new & E & O & C).
  destruct (m w s) as [[a|e] s']; cbn [snd] in *.
  - exists new. repeat split; auto. lia.
  - destruct (Hh e w s') as (new' & E' & O' & C').
    exists (new' ++ new)%list. rewrite E', E, app_assoc.
    split; [reflexivity|]. split.
    + rewrite forallb_app. now rewrite O, O'.
    + rewrite remote_count_app. lia.
Qed.

Lemma emits_perform {A} (ok : event -> bool) (e : event)
    (outcome : world -> list event -> pyresult A) :
  ok e = true ->
  emits ok (if is_remote_call e then 1 else 0) (perform e outcome).
Proof.
  intros H w s. exists [e]. cbn. rewrite H.
  repeat split. destruct (is_remote_call e); cbn; lia.
Qed.

Lemma emits_if {A} (ok : event -> bool) (bound : nat) (b : bool)
    (m1 m2 : M A) :
  emits ok bound m1 -> emits ok bound m2 ->
  emits ok bound (if b then m1 else m2).
Proof. now destruct b. Qed.

Lemma emits_generate_fallback_response (ok : event -> bool)
    (query context : string) :
  emits ok 0 (Rag.generate_fallback_response query context).
Proof. apply emits_silent. intros w s. reflexivity. Qed.

Lemma emits_generate_response (query context : string) :
  emits is_query_event 2 (Rag.generate_response query context).
Proof.
  unfold Rag.generate_response.
  apply (emits_bind _ 0 2); [apply emits_silent; intros w s; reflexivity|].
  intros fallback. apply emits_if.
  { apply (emits_weaken _ 0); [lia | apply emits_generate_fallback_response]. }
  apply (emits_bind _ 0 2); [apply emits_silent; intros w s; reflexivity|].
  intros api_key.
  apply (emits_bind _ 0 2); [apply emits_silent; intros w s; reflexivity|].
  intros invalid. apply emits_if.
  { apply (emits_weaken _ 0); [lia | apply emits_generate_fallback_response]. }
  apply (emits_try _ 2 0).
  - apply (emits_try _ 1 1).
    + unfold Rag.chat. apply (emits_perform is_query_event (EvChat _ _ _)).
      reflexivity.
    + intros e. apply (emits_try _ 1 0).
      * unfold Rag.chat. apply (emits_perform is_query_event (EvChat _ _ _)).
        reflexivity.
      * intros e'. apply (emits_bind _ 0 0).
        -- apply emits_silent; intros w s; reflexivity.
        -- intros _. apply emits_generate_fallback_response.
  - intros e. apply (emits_bind _ 0 0).
    + apply emits_silent; intros w s; reflexivity.
    + intros _. apply emits_generate_fallback_response.
Qed.

Lemma emits_collect (key_terms : list string) (acc : list observation) :
  emits is_query_event 0 (Rag.collect_observations key_terms acc).
Proof.
  revert acc. induction key_terms as [|term rest IH]; intros acc;
    cbn [Rag.collect_observations].
  - apply emits_silent. intros w s. reflexivity.
  - apply (emits_bind _ 0 0).
    + apply (emits_perform is_query_event (EvFindBySpecies term)). reflexivity.
    + intros found. apply (emits_bind _ 0 0).
      * apply (emits_perform is_query_event (EvFindByLocation term)).
        reflexivity.
      * intros found'. apply IH.
Qed.

Lemma emits_process_query (query : string) :
  emits is_query_event 2 (Rag.process_query query).
Proof.
  unfold Rag.process_query. apply (emits_try _ 2 0).
  - apply (emits_bind _ 0 2).
    + apply (emits_perform is_query_event (EvSearch query)). reflexivity.
    + intros docs. apply (emits_bind _ 0 2); [apply emits_collect|].
      intros obs.
      apply (emits_bind _ 0 2); [apply emits_silent; intros w s; reflexivity|].
      intros context.
      apply (emits_bind _ 2 0); [apply emits_generate_response|].
      intros text.
      apply (emits_bind _ 0 0); [|intros sources];
        apply emits_silent; intros w s; reflexivity.
  - intros e. apply emits_silent. intros w s. reflexivity.
Qed.

Lemma emits_get_species_from_image (image_path : string) :
  emits is_image_event 1 (Ai.get_species_from_image image_path).
Proof.
  unfold Ai.get_species_from_image.
  apply (emits_bind _ 0 1); [apply emits_silent; intros w s; reflexivity|].
  intros fallback. apply emits_if.
  { apply emits_weaken with (b := 0); [lia|].
    apply emits_silent; intros w s; reflexivity. }
  apply (emits_bind _ 0 1); [apply emits_silent; intros w s; reflexivity|].
  intros api_key.
  apply (emits_bind _ 0 1); [apply emits_silent; intros w s; reflexivity|].
  intros invalid. apply emits_if.
  { apply emits_weaken with (b := 0); [lia|].
    apply emits_silent; intros w s; reflexivity. }
  apply (emits_try _ 1 0).
  - apply (emits_bind _ 0 1).
    + apply (emits_perform is_image_event (EvReadImage _)). reflexivity.
    + intros b64. apply (emits_bind _ 1 0).
      * apply (emits_perform is_image_event (EvPost _ _)). reflexivity.
      * intros payload. apply emits_silent. intros w s.
        unfold bind, lift.
        destruct (json_in "choices" payload) as [[|]|e]; try reflexivity.
        destruct (Ai.content_of payload); reflexivity.
  - intros e. apply emits_silent. intros w s. reflexivity.
Qed.

Lemma emits_new_events {A} (ok : event -> bool) (bound : nat) (m : M A) :
  emits ok bound m ->
  forall w s,
    log (snd (m w s)) = (new_events s (snd (m w s)) ++ log s)%list
    /\ forallb ok (new_events s (snd (m w s))) = true
    /\ remote_count (new_events s (snd (m w s))) <= bound.
Proof.
  intros H w s. destruct (H w s) as (new & E & O & C).
  rewrite (new_events_app s _ new E). auto.
Qed.

(** X10: a request costs a bounded number of remote calls and stays within its
    own collaborators: [process_query] only appends searches, lookups and
    chat calls to the log, at most two of them remote; and
    [get_species_from_image] only appends an image read and a post, at
    most one remote call.  Neither ever removes an event. *)
Theorem remote_calls_per_request :
  forall w s,
    (forall query,
       log (snd (Rag.process_query query w s))
       = (new_events s (snd (Rag.process_query query w s)) ++ log s)%list
       /\ forallb is_query_event
            (new_events s (snd (Rag.process_query query w s))) = true
       /\ remote_count (new_events s (snd (Rag.process_query query w s))) <= 2)
    /\ (forall image_path,
          log (snd (Ai.get_species_from_image image_path w s))
          = (new_events s (snd (Ai.get_species_from_image image_path w s))
               ++ log s)%list
          /\ forallb is_image_event
               (new_events s (snd (Ai.get_species_from_image image_path w s)))
             = true
          /\ remote_count
               (new_events s (snd (Ai.get_species_from_image image_path w s)))
             <= 1).
Proof.
  intros w s. split.
  - intros query. apply (emits_new_events _ _ _ (emits_process_query query)).
  - intros image_path.
    apply (emits_new_events _ _ _ (emits_get_species_from_image image_path)).
Qed.

(* ================================================================= *)
(** ** More on the term extractor *)

Lemma contains_trans (a b s : string) :
  contains a b = true -> contains b s = true -> contains a s = true.
Proof.
  unfold contains at 1 2.
  destruct (find a b) as [j|] eqn:Fa; [intros _|discriminate].
  destruct (find b s) as [i|] eqn:Fb; [intros _|discriminate].
  assert (Hs := find_decompose b s i Fb).
  assert (Hb := find_decompose a b j Fa).
  remember (take i s) as p eqn:Ep.
  remember (drop (i + String.length b) s) as q eqn:Eq.
  rewrite Hs. clear Hs Ep Eq Fb.
  remember (take j b) as p' eqn:Ep'.
  remember (drop (j + String.length a) b) as q' eqn:Eq'.
  apply contains_app_r, contains_app_l. rewrite Hb. apply contains_middle.
Qed.

Lemma vocabulary_NoDup : NoDup (Rag.locations ++ Rag.categories).
Proof.
  cbn. repeat (constructor; [cbn; intuition discriminate|]). constructor.
Qed.

Lemma extract_key_terms_filter (query : string) :
  Rag.extract_key_terms query
  = filter (fun term => contains term (lower query))
           (Rag.locations ++ Rag.categories).
Proof.
  unfold Rag.extract_key_terms. rewrite !scan_filter, filter_app. reflexivity.
Qed.

(** X11: the extracted terms are vocabulary words that occur in the lowercased
    query, each at most once, so there are at most sixteen; and a plural
    category never comes alone: whenever "birds", "mammals", "reptiles" or
    "amphibians" is extracted, so is its singular, and the observations
    are then looked up under both. *)
Theorem extract_key_terms_terms :
  forall query,
    NoDup (Rag.extract_key_terms query)
    /\ List.length (Rag.extract_key_terms query) <= 16
    /\ (forall term,
          In term (Rag.extract_key_terms query) <->
          In term (Rag.locations ++ Rag.categories)
          /\ contains term (lower query) = true)
    /\ (forall singular,
          In singular ["bird"; "mammal"; "reptile"; "amphibian"] ->
          In (singular ++ "s") (Rag.extract_key_terms query) ->
          In singular (Rag.extract_key_terms query)).
Proof.
  intros query. rewrite extract_key_terms_filter.
  split; [apply NoDup_filter, vocabulary_NoDup|].
  split.
  { etransitivity; [apply filter_length_le|]. cbn. lia. }
  split.
  { intros term.
    exact (filter_In (fun t => contains t (lower query)) term
             (Rag.locations ++ Rag.categories)). }
  intros singular Hs Hp. apply filter_In in Hp as [_ Hp].
  apply filter_In. split.
  - cbn in Hs. cbn.
    repeat (destruct Hs as [<-|Hs]; [tauto|]). contradiction.
  - apply (contains_trans singular (singular ++ "s")); [|exact Hp].
    apply contains_app_l. unfold contains.
    rewrite (find_of_prefix singular singular); [reflexivity|].
    rewrite <- (append_nil_r singular) at 2. apply prefix_append.
Qed.

(** A question about reptiles yields "reptile" as well as "reptiles". *)
Lemma extract_key_terms_terms_witness :
  In "reptile" (Rag.extract_key_terms "Any REPTILES on the trail?").
Proof.
  apply (proj2 (proj2 (proj2 (extract_key_terms_terms
                                "Any REPTILES on the trail?")))).
  - cbn. tauto.
  - vm_compute. tauto.
Defined.

(* ================================================================= *)
(** ** The location rules of the deterministic generator *)

Lemma parse_lines_lengths (lines species_mentioned locations_mentioned
    : list string) :
  List.length species_mentioned = List.length locations_mentioned ->
  List.length (fst (Rag.parse_lines lines species_mentioned locations_mentioned))
  = List.length (snd (Rag.parse_lines lines species_mentioned
                        locations_mentioned)).
Proof.
  revert species_mentioned locations_mentioned.
  induction lines as [|line rest IH]; intros sm lm H; [exact H|].
  cbn [Rag.parse_lines].
  destruct (startswith line "- " && contains "observed at" line).
  - apply IH. rewrite !length_app. cbn. lia.
  - now apply IH.
Qed.

Lemma species_at_pairs (keyword : string) (locations_mentioned : list string) :
  forall species_mentioned earlier out,
    List.length species_mentioned = List.length locations_mentioned ->
    Rag.species_at keyword (List.length earlier) locations_mentioned
      (earlier ++ species_mentioned) out
    = (out ++ species_near keyword species_mentioned locations_mentioned)%list.
Proof.
  induction locations_mentioned as [|loc rest IH];
    intros species_mentioned earlier out H.
  - destruct species_mentioned; [|discriminate].
    cbn. now rewrite app_nil_r.
  - destruct species_mentioned as [|sp more]; [discriminate|].
    cbn [Rag.species_at]. injection H as H.
    assert (L : (List.length earlier
                 <? List.length (earlier ++ sp :: more)) = true)
      by (apply Nat.ltb_lt; rewrite length_app; cbn; lia).
    rewrite L, andb_true_r, nth_middle.
    replace (earlier ++ sp :: more)%list with ((earlier ++ [sp]) ++ more)%list
      by (now rewrite <- app_assoc).
    replace (S (List.length earlier)) with (List.length (earlier ++ [sp]))
      by (rewrite length_app; cbn; lia).
    rewrite (IH more (earlier ++ [sp])%list _ H).
    unfold species_near. cbn [combine filter snd].
    destruct (contains keyword (lower loc)); cbn [map fst];
      [now rewrite <- app_assoc | reflexivity].
Qed.

Lemma species_at_near (keyword : string)
    (species_mentioned locations_mentioned : list string) :
  List.length species_mentioned = List.length locations_mentioned ->
  Rag.species_at keyword 0 locations_mentioned species_mentioned []
  = species_near keyword species_mentioned locations_mentioned.
Proof.
  intros H. exact (species_at_pairs keyword locations_mentioned
                     species_mentioned [] [] H).
Qed.

Lemma parse_context_lengths (context : string) :
  List.length (fst (Rag.parse_context context))
  = List.length (snd (Rag.parse_context context)).
Proof. unfold Rag.parse_context. now apply parse_lines_lengths. Qed.

Lemma no_bird_no_birds (query_lower : string) :
  contains "bird" query_lower = false ->
  contains "bird" query_lower || contains "birds" query_lower = false.
Proof.
  intros H. rewrite H. cbn [orb].
  destruct (contains "birds" query_lower) eqn:E; [|reflexivity].
  rewrite (contains_trans "bird" "birds" query_lower) in H;
    [discriminate | reflexivity | exact E].
Qed.

(** X12: the two lists rebuilt from the context always have the same length,
    so the bound test of the location rules never fails, and for a query
    without "bird" the rules apply in this order: with "margalla", the
    species whose own line has a location mentioning "margalla"; else
    with "rawal" or "lake", the species whose own line has a location
    mentioning "rawal" (never "lake"); else the first three species
    parsed.  Each rule has its own text when it finds nothing. *)
Theorem location_rules :
  forall query context,
    List.length (fst (Rag.parse_context context))
    = List.length (snd (Rag.parse_context context))
    /\ (contains "bird" (lower query) = false ->
        (contains "margalla" (lower query) = true ->
         Rag.fallback_text query context
         = margalla_answer
             (species_near "margalla" (fst (Rag.parse_context context))
                (snd (Rag.parse_context context))))
        /\ (contains "margalla" (lower query) = false ->
            contains "rawal" (lower query) = true
            \/ contains "lake" (lower query) = true ->
            Rag.fallback_text query context
            = lake_answer
                (species_near "rawal" (fst (Rag.parse_context context))
                   (snd (Rag.parse_context context))))
        /\ (contains "margalla" (lower query) = false ->
            contains "rawal" (lower query) = false ->
            contains "lake" (lower query) = false ->
            Rag.fallback_text query context
            = default_answer (fst (Rag.parse_context context)))).
Proof.
  intros query context.
  assert (L := parse_context_lengths context).
  split; [exact L|]. intros Hb.
  unfold Rag.fallback_text.
  destruct (Rag.parse_context context) as [sm lm]. cbn [fst snd] in *.
  rewrite (no_bird_no_birds _ Hb).
  split; [|split].
  - intros Hm. rewrite Hm, (species_at_near _ _ _ L).
    unfold margalla_answer. now destruct (species_near "margalla" sm lm).
  - intros Hm Hl. rewrite Hm.
    replace (contains "rawal" (lower query) || contains "lake" (lower query))
      with true
      by (destruct Hl as [-> | ->]; [reflexivity | now rewrite orb_true_r]).
    rewrite (species_at_near _ _ _ L).
    unfold lake_answer. now destruct (species_near "rawal" sm lm).
  - intros Hm Hr Hl. rewrite Hm, Hr, Hl. cbn [orb].
    unfold default_answer. now destruct sm.
Qed.

(** A question about the lake over the context of one leopard at Rawal
    Lake. *)
Lemma location_rules_witness :
  Rag.fallback_text "What lives near the lake?" lake_context
  = lake_answer
      (species_near "rawal" (fst (Rag.parse_context lake_context))
         (snd (Rag.parse_context lake_context))).
Proof.
  apply (proj2 (location_rules "What lives near the lake?" lake_context)).
  - vm_compute. reflexivity.
  - vm_compute. reflexivity.
  - right. vm_compute. reflexivity.
Defined.

Lemma species_near_map (keyword : string) (obs_list : list observation) :
  species_near keyword (map species_of obs_list)
    (map recovered_location obs_list)
  = map species_of
      (filter (fun obs => contains keyword (lower (recovered_location obs)))
              obs_list).
Proof.
  unfold species_near.
  induction obs_list as [|obs rest IH]; [reflexivity|].
  cbn [map combine filter snd].
  destruct (contains keyword (lower (recovered_location obs)));
    cbn [map fst]; now rewrite IH.
Qed.

(** X13: from the observations to the answer: over the context built from
    clean observations, a question that mentions "margalla" and no bird
    is answered with the species names of those among the first five
    observations whose recovered location mentions "margalla", in order;
    observations after the fifth are never listed. *)
Theorem margalla_question_end_to_end :
  forall docs observations query,
    forallb complete (firstn 3 docs) = true ->
    contains "observed at" (knowledge_block docs) = false ->
    forallb clean (firstn 5 observations) = true ->
    contains "bird" (lower query) = false ->
    contains "margalla" (lower query) = true ->
    exists context,
      Rag.build_context docs observations = Return context
      /\ Rag.fallback_text query context
         = margalla_answer
             (map species_of
                (filter
                   (fun obs =>
                      contains "margalla" (lower (recovered_location obs)))
                   (firstn 5 observations))).
Proof.
  intros docs observations query Hd Hb Hc Hq Hm.
  destruct (parse_built_context docs observations Hd Hb Hc)
    as (context & B & P).
  exists context. split; [exact B|].
  assert (L := parse_context_lengths context).
  unfold Rag.fallback_text. rewrite P in *. cbn [fst snd] in L.
  rewrite (no_bird_no_birds _ Hq), Hm, (species_at_near _ _ _ L).
  rewrite species_near_map. unfold margalla_answer.
  now destruct (map species_of _).
Qed.

(** Three clean observations, two of them in the Margalla Hills. *)
Lemma margalla_question_end_to_end_witness :
  exists context,
    Rag.build_context [] hill_observations = Return context
    /\ Rag.fallback_text "Who lives in the Margalla Hills?" context
       = "In Margalla Hills, these species have been recorded: Common Leopard, Barking Deer.".
Proof.
  destruct (margalla_question_end_to_end [] hill_observations
              "Who lives in the Margalla Hills?")
    as (context & B & T); try (vm_compute; reflexivity).
  exists context. split; [exact B|]. rewrite T. vm_compute. reflexivity.
Defined.

(* ================================================================= *)
(** ** What the filename heuristic looks at *)

Lemma rfind_absent (sub s : string) :
  sub <> "" -> contains sub s = false -> rfind sub s = None.
Proof.
  intros Hsub. induction s as [|c s IH]; intros H.
  - destruct sub; [congruence | reflexivity].
  - apply contains_cons_false in H as [P H].
    cbn [rfind]. now rewrite (IH H), P.
Qed.

Lemma prefix_slash (s : string) :
  prefix "/" s
  = match s with String c _ => Ascii.eqb c "/" | "" => false end.
Proof.
  destruct s as [|c s]; [reflexivity|]. cbn [prefix].
  destruct (ascii_dec "/" c) as [<-|N].
  - now rewrite prefix_nil.
  - symmetry. apply Ascii.eqb_neq. congruence.
Qed.

Lemma rfind_last_slash (dir name : string) :
  contains "/" name = false ->
  rfind "/" (dir ++ "/" ++ name) = Some (String.length dir).
Proof.
  intros H. induction dir as [|c dir IH].
  - change ("" ++ "/" ++ name) with (String "/" name). cbn [rfind].
    rewrite (rfind_absent "/" name) by (discriminate || assumption).
    now rewrite prefix_slash.
  - change (String c dir ++ "/" ++ name)
      with (String c (dir ++ "/" ++ name)).
    cbn [rfind String.length]. now rewrite IH.
Qed.

Lemma basename_of_path (dir name : string) :
  contains "/" name = false ->
  basename (dir ++ "/" ++ name) = name /\ basename name = name.
Proof.
  intros H. unfold basename. split.
  - rewrite (rfind_last_slash dir name H), drop_add, drop_app_length.
    apply (drop_app_length "/" name).
  - now rewrite (rfind_absent "/" name) by (discriminate || assumption).
Qed.

Lemma lower_char_idempotent (c : ascii) :
  lower_char (lower_char c) = lower_char c.
Proof. destruct c as [[] [] [] [] [] [] [] []]; reflexivity. Qed.

Lemma lower_idempotent (s : string) : lower (lower s) = lower s.
Proof.
  induction s as [|c s IH]; [reflexivity|].
  cbn [lower]. now rewrite lower_char_idempotent, IH.
Qed.

Lemma lower_char_slash (c : ascii) :
  Ascii.eqb (lower_char c) "/" = Ascii.eqb c "/".
Proof. destruct c as [[] [] [] [] [] [] [] []]; reflexivity. Qed.

Lemma rfind_slash_lower (s : string) : rfind "/" (lower s) = rfind "/" s.
Proof.
  induction s as [|c s IH]; [reflexivity|].
  cbn [lower rfind]. rewrite IH.
  destruct (rfind "/" s); [reflexivity|].
  change (String (lower_char c) (lower s)) with (lower (String c s)).
  rewrite !prefix_slash. cbn [lower]. now rewrite lower_char_slash.
Qed.

Lemma lower_drop (n : nat) (s : string) : lower (drop n s) = drop n (lower s).
Proof.
  revert s. induction n as [|n IH]; intros [|c s]; cbn; auto.
Qed.

Lemma basename_lower (path : string) :
  basename (lower path) = lower (basename path).
Proof.
  unfold basename. rewrite rfind_slash_lower.
  destruct (rfind "/" path); [now rewrite lower_drop | reflexivity].
Qed.

(** X14: the identification looks only at the last component of the path and
    not at the case of its letters: the directories in front of a file
    name, and writing the path in capitals, change nothing. *)
Theorem identification_ignores_directory_and_case :
  (forall dir file_name,
     contains "/" file_name = false ->
     Ai.generate_fallback_identification (dir ++ "/" ++ file_name)
     = Ai.generate_fallback_identification file_name)
  /\ (forall image_path,
        Ai.generate_fallback_identification (lower image_path)
        = Ai.generate_fallback_identification image_path).
Proof.
  split.
  - intros dir file_name H.
    unfold Ai.generate_fallback_identification, Ai.stem.
    destruct (basename_of_path dir file_name H) as [-> ->]. reflexivity.
  - intros image_path.
    unfold Ai.generate_fallback_identification, Ai.stem.
    now rewrite basename_lower, lower_idempotent.
Qed.

(** An upload below a directory whose name holds a keyword. *)
Lemma identification_ignores_directory_and_case_witness :
  Ai.generate_fallback_identification "static/uploads/eagle_dir/uuid_fox.jpg"
  = Ai.generate_fallback_identification "uuid_fox.jpg".
Proof.
  apply (proj1 identification_ignores_directory_and_case
           "static/uploads/eagle_dir" "uuid_fox.jpg").
  vm_compute. reflexivity.
Defined.

(* ================================================================= *)
(** ** What an identification result can hold *)

Lemma lstrip_is_drop (s : string) : exists k, lstrip s = drop k s.
Proof.
  induction s as [|c s [k IH]]; [now exists 0|].
  cbn [lstrip]. destruct (isspace c); [now exists (S k) | now exists 0].
Qed.

Lemma rstrip_is_take (s : string) : exists k, rstrip s = take k s.
Proof.
  induction s as [|c s [k IH]]; [now exists 0|].
  cbn [rstrip]. rewrite IH.
  destruct (take k s) eqn:E.
  - destruct (isspace c); [now exists 0 | now exists 1; destruct s].
  - exists (S k). cbn [take]. now rewrite E.
Qed.

Lemma rstrip_idempotent (s : string) : rstrip (rstrip s) = rstrip s.
Proof.
  induction s as [|c s IH]; [reflexivity|].
  cbn [rstrip]. destruct (rstrip s) as [|d r] eqn:E.
  - destruct (isspace c) eqn:Sp; [reflexivity|]. cbn [rstrip]. now rewrite Sp.
  - cbn [rstrip] in *. now rewrite IH.
Qed.

Lemma lstrip_idempotent (s : string) : lstrip (lstrip s) = lstrip s.
Proof.
  induction s as [|c s IH]; [reflexivity|].
  cbn [lstrip]. destruct (isspace c) eqn:Sp; [exact IH|].
  cbn [lstrip]. now rewrite Sp.
Qed.

Lemma strip_sides_commute (s : string) : rstrip (lstrip s) = lstrip (rstrip s).
Proof.
  induction s as [|c s IH]; [reflexivity|].
  cbn [lstrip rstrip]. destruct (isspace c) eqn:Sp.
  - rewrite IH. destruct (rstrip s) as [|d r]; [reflexivity|].
    cbn [lstrip]. now rewrite Sp.
  - cbn [rstrip]. destruct (rstrip s) as [|d r]; cbn [lstrip]; now rewrite Sp.
Qed.

Lemma strip_idempotent (s : string) : strip (strip s) = strip s.
Proof.
  unfold strip.
  now rewrite strip_sides_commute, lstrip_idempotent, rstrip_idempotent.
Qed.

Lemma contains_strip_false (sub s : string) :
  contains sub s = false -> contains sub (strip s) = false.
Proof.
  intros H. unfold strip.
  destruct (rstrip_is_take s) as [k ->].
  destruct (lstrip_is_drop (take k s)) as [j ->].
  now apply contains_drop_false, contains_take_false.
Qed.

Lemma before_clear (sep s : string) :
  sep <> "" -> contains sep (before sep s) = false.
Proof.
  intros Hsep. unfold before.
  destruct (find sep s) as [i|] eqn:F;
    [|unfold contains; now rewrite F].
  destruct (contains sep (take i s)) eqn:C; [|reflexivity].
  unfold contains in C.
  destruct (find sep (take i s)) as [j|] eqn:G; [|discriminate].
  assert (B := find_bound _ _ _ G). rewrite length_take in B.
  assert (E := find_app_l sep (take i s) (drop i s) j G).
  rewrite take_drop, F in E. inversion E; subst.
  destruct sep; [congruence | simpl in B; lia].
Qed.

Lemma lower_take (n : nat) (s : string) : lower (take n s) = take n (lower s).
Proof.
  revert s. induction n as [|n IH]; intros [|c s]; cbn; auto.
  now rewrite IH.
Qed.

Lemma lower_strip_fixed (s : string) :
  lower s = s -> lower (strip s) = strip s.
Proof.
  intros H. unfold strip.
  destruct (rstrip_is_take s) as [k ->].
  destruct (lstrip_is_drop (take k s)) as [j ->].
  now rewrite lower_drop, lower_take, H.
Qed.

Lemma lower_before_fixed (sep s : string) :
  lower s = s -> lower (before sep s) = before sep s.
Proof.
  intros H. unfold before. destruct (find sep s); [|exact H].
  now rewrite lower_take, H.
Qed.

Lemma lower_after_fixed (sep s : string) :
  lower s = s -> lower (after sep s) = after sep s.
Proof.
  intros H. unfold after. destruct (find sep s); [|reflexivity].
  now rewrite lower_drop, H.
Qed.

Lemma get_confidence_values (text : string) :
  In (Ai.get_confidence_from_text text) [9 # 10; 7 # 10; 5 # 10; 6 # 10].
Proof.
  unfold Ai.get_confidence_from_text.
  destruct (contains "high confidence" (lower text)); [cbn; auto|].
  destruct (contains "medium confidence" (lower text)); [cbn; auto|].
  destruct (contains "low confidence" (lower text)); cbn; auto.
Qed.

(** X15: whatever the response text, a species record extracted from it has a
    normalised name: lowercase, without blanks around it, without a
    period and without "identified as"; and its confidence is one of 0.9,
    0.7, 0.5, 0.6. *)
Theorem extracted_species_is_normalised :
  forall text sp,
    Ai.extract_species_from_result text = Some sp ->
    lower (name sp) = name sp
    /\ strip (name sp) = name sp
    /\ contains "." (name sp) = false
    /\ contains "identified as" (name sp) = false
    /\ In (confidence sp) [9 # 10; 7 # 10; 5 # 10; 6 # 10].
Proof.
  intros text sp H.
  destruct (contains "identified as" (lower text)) eqn:C.
  - rewrite (extract_species_present text C) in H. inversion H; subst.
    cbn [name confidence]. unfold name_extracted.
    split; [|split; [|split; [|split]]].
    + apply lower_strip_fixed, lower_before_fixed, lower_strip_fixed,
        lower_before_fixed, lower_after_fixed, lower_idempotent.
    + apply strip_idempotent.
    + apply contains_strip_false, before_clear. discriminate.
    + apply contains_strip_false. unfold before at 1.
      destruct (find "." _);
        [apply contains_take_false|];
        apply contains_strip_false, before_clear; discriminate.
    + apply get_confidence_values.
  - rewrite (extract_species_absent text C) in H. discriminate.
Qed.

(** The record extracted from a capitalised, padded response. *)
Lemma extracted_species_is_normalised_witness :
  Ai.extract_species_from_result
    "The animal is IDENTIFIED AS   Common Leopard  . High Confidence."
  = Some {| name := "common leopard"; confidence := 9 # 10 |}
  /\ strip "common leopard" = "common leopard".
Proof.
  assert (E : Ai.extract_species_from_result
                "The animal is IDENTIFIED AS   Common Leopard  . High Confidence."
              = Some {| name := "common leopard"; confidence := 9 # 10 |})
    by (vm_compute; reflexivity).
  split; [exact E|].
  exact (proj1 (proj2 (extracted_species_is_normalised _ _ E))).
Defined.

Lemma get_species_from_image_results (w : world) (s : state)
    (image_path : string) (r : IdentificationResult) :
  fst (Ai.get_species_from_image image_path w s) = Return r ->
  r = Ai.generate_fallback_identification image_path
  \/ exists text,
       r = {| success := true;
              result := text;
              species := Ai.extract_species_from_result text |}.
Proof.
  unfold Ai.get_species_from_image, bind, Ai.get_fallback, config_api_key, lift.
  destruct (ai_USE_FALLBACK_MODE s);
    [cbn; intros H; inversion H; now left|].
  destruct (api_key_invalid (OPENAI_API_KEY w)) as [[|]|e];
    [cbn; intros H; inversion H; now left | | cbn; discriminate].
  unfold try_except, perform.
  destruct (read_image_base64 w (log s) image_path) as [b64|e];
    [|cbn; intros H; inversion H; now left].
  destruct (post_json w _ _ b64) as [payload|e];
    [|cbn; intros H; inversion H; now left].
  destruct (json_in "choices" payload) as [[|]|e];
    try (cbn; intros H; inversion H; now left).
  destruct (Ai.content_of payload) as [text|e];
    cbn; intros H; inversion H; [right; now exists text | now left].
Qed.

(** X16: every result that [get_species_from_image] returns, in any world and
    state, has [success] true, and the confidence of its species, when it
    has one, lies between 0.5 and 0.9. *)
Theorem identification_confidence_range :
  forall w s image_path r,
    fst (Ai.get_species_from_image image_path w s) = Return r ->
    success r = true
    /\ forall sp,
         species r = Some sp ->
         (5 # 10 <= confidence sp)%Q /\ (confidence sp <= 9 # 10)%Q.
Proof.
  intros w s image_path r H.
  destruct (get_species_from_image_results w s image_path r H)
    as [->|[text ->]].
  - unfold Ai.generate_fallback_identification.
    generalize (scan_wildlife_cases Ai.common_wildlife (Ai.stem image_path)).
    generalize (Ai.scan_wildlife Ai.common_wildlife (Ai.stem image_path)).
    intros r0 Hin. cbn in Hin.
    repeat (destruct Hin as [<-|Hin];
            [split; [reflexivity|];
             intros sp Hsp; inversion Hsp; subst; cbn;
             split; unfold Qle; cbn; lia|]).
    contradiction.
  - split; [reflexivity|]. cbn [species]. intros sp Hsp.
    assert (V := get_confidence_values text).
    unfold Ai.extract_species_from_result in Hsp.
    destruct (contains "identified as" (lower text)); [|discriminate].
    inversion Hsp; subst. cbn [confidence]. cbn in V.
    destruct V as [<-|[<-|[<-|[<-|[]]]]]; split; unfold Qle; cbn; lia.
Qed.

(** The range on the answer of a world whose remote service answers. *)
Lemma identification_confidence_range_witness :
  fst (Ai.get_species_from_image "uuid123_leopard.jpg" valid_key_world
         fresh_state)
  = Return {| success := true;
              result := "Identified as Red Fox. High confidence.";
              species := Some {| name := "red fox"; confidence := 9 # 10 |} |}
  /\ (5 # 10 <= 9 # 10)%Q.
Proof.
  assert (E : fst (Ai.get_species_from_image "uuid123_leopard.jpg"
                     valid_key_world fresh_state)
              = Return
                  {| success := true;
                     result := "Identified as Red Fox. High confidence.";
                     species :=
                       Some {| name := "red fox"; confidence := 9 # 10 |} |})
    by (vm_compute; reflexivity).
  split; [exact E|].
  exact (proj1 (proj2 (identification_confidence_range _ _ _ _ E) _ eq_refl)).
Defined.

(* ================================================================= *)
(** ** What reaches the generator *)

Lemma take_take (n : nat) (s : string) : take n (take n s) = take n s.
Proof.
  revert s. induction n as [|n IH]; intros [|c s]; cbn; auto.
  now rewrite IH.
Qed.

Lemma add_documents_truncate (docs : list document) (context : string) :
  Rag.add_documents (map truncate docs) context
  = Rag.add_documents docs context.
Proof.
  revert context. induction docs as [|doc rest IH]; intros context;
    [reflexivity|].
  cbn [map Rag.add_documents truncate doc_title doc_source doc_content].
  destruct (doc_title doc); [|reflexivity].
  destruct (doc_source doc); [|reflexivity].
  destruct (doc_content doc) as [c|]; cbn [option_map]; [|reflexivity].
  now rewrite take_take, IH.
Qed.

(** X17: of each document only the first 300 characters of the content reach
    the context: two lists of documents that agree on titles, sources and
    those 300 characters give the same context, in success and in
    failure. *)
Theorem build_context_ignores_content_tail :
  forall docs docs' observations,
    map truncate docs = map truncate docs' ->
    Rag.build_context docs observations
    = Rag.build_context docs' observations.
Proof.
  intros docs docs' observations H. unfold Rag.build_context.
  rewrite <- (add_documents_truncate (firstn 3 docs)),
          <- (add_documents_truncate (firstn 3 docs')).
  now rewrite <- !firstn_map, H.
Qed.

(** A content of 400 characters and its first 300 followed by other
    text. *)
Lemma build_context_ignores_content_tail_witness :
  Rag.build_context
    [make_document "Margalla Birds" "IWMB" (repeat_string 40 "0123456789")]
    seven_observations
  = Rag.build_context
      [make_document "Margalla Birds" "IWMB"
         (repeat_string 30 "0123456789" ++ " and a different ending")]
      seven_observations.
Proof.
  apply build_context_ignores_content_tail. vm_compute. reflexivity.
Defined.
